(** * Coldcard simulator bridge (unix/simulator.py): display decoders,
      LED decoder and key-event handling, embedded from the Python source.

    Python objects are modelled as follows.
    - [bytes] values are lists of [Z] in 0..255; [str] values are lists of
      Unicode code points ([Z]); [None] is [option]'s [None].
    - An exception aborts the computation: [result] carries the value or
      the exception class raised.
    - A non-blocking raw file object is the list of bytes pending in the
      pipe; [read n] consumes at most [n] of them.
    - The SDL pixel view [mv] is a list of rows, indexed [mv[y][x]].
    - The [pressed] set is a [gset] of strings; the key-out pipe is the
      list of bytes written so far.
    - Output on stdout and the image/movie collaborators are not part of
      the state; the control branch taken is recorded in a trace. *)

From Stdlib Require Import ZArith List Lia Bool.
From stdpp Require Import base option list gmap sets.
Import ListNotations.

Local Open Scope Z_scope.

(** ** Exceptions and the error monad *)

Inductive exn : Type :=
  | AssertionError
  | StructError
  | TypeError
  | AttributeError
  | UnicodeEncodeError
  | IndexError.

Inductive result (A : Type) : Type :=
  | Ok (a : A)
  | Raise (e : exn).
Arguments Ok {A} a.
Arguments Raise {A} e.

Definition bind {A B} (m : result A) (k : A -> result B) : result B :=
  match m with
  | Ok a => k a
  | Raise e => Raise e
  end.

Notation "'let!' x ':=' m 'in' k" := (bind m (fun x => k))
  (at level 10, x name, m at level 200, k at level 200).

Definition is_raise {A} (m : result A) : Prop :=
  match m with Ok _ => False | Raise _ => True end.

(** [for x in l: s = body x s], stopping at the first exception. *)
Fixpoint for_ {S} (l : list nat) (body : nat -> S -> result S) (s : S)
  : result S :=
  match l with
  | [] => Ok s
  | i :: l' => let! s' := body i s in for_ l' body s'
  end.

(** Python [range(start, stop)] and [range(start, stop, step)]. *)
Definition range (start stop : nat) : list nat :=
  seq start (stop - start).

Definition range_step (start stop step : nat) : list nat :=
  map (fun k => (start + k * step)%nat)
      (seq 0 ((stop - start + (step - 1)) / step)%nat).

(** ** Byte channels *)

Abbreviation bytes := (list Z).

(** [readable.read(n)] on a non-blocking unbuffered pipe: at most [n] of
    the pending bytes; [None] when nothing is pending. *)
Definition read (n : nat) (pipe : bytes) : option bytes * bytes :=
  match n, pipe with
  | O, _ => (Some [], pipe)
  | _, [] => (None, [])
  | _, _ => (Some (take n pipe), drop n pipe)
  end.

(** Truth value of a [read] result: [None] and [b''] are false. *)
Definition truthy (b : option bytes) : bool :=
  match b with
  | Some (_ :: _) => true
  | _ => false
  end.

(** [buf[-n:]] *)
Definition last_slice (n : nat) (buf : bytes) : bytes :=
  drop (length buf - n)%nat buf.

(** [buf[i]] for an index that is never negative here. *)
Definition getitem (buf : bytes) (i : nat) : result Z :=
  match buf !! i with
  | Some v => Ok v
  | None => Raise IndexError
  end.

(** ** Pixel views *)

(** [sdl2.ext.PixelView]: rows of pixels. *)
Abbreviation PixelView colour := (list (list colour)).

Section Screens.

Context {colour : Type}.

(** [mv[y][x] = v] *)
Definition setitem2 (mv : PixelView colour) (y x : nat) (v : colour)
  : result (PixelView colour) :=
  match mv !! y with
  | Some row =>
      if decide (x < length row)%nat
      then Ok (<[y := <[x := v]> row]> mv)
      else Raise IndexError
  | None => Raise IndexError
  end.

(** [mv[y][x]] as the renderer reads it. *)
Definition pixel (mv : PixelView colour) (y x : nat) : option colour :=
  row ← mv !! y; row !! x.

(** A view of [h] rows of [w] pixels, as [create_software_sprite((w,h))]
    makes it. *)
Definition dims (h w : nat) (mv : PixelView colour) : Prop :=
  length mv = h /\ Forall (fun row => length row = w) mv.

(** ** OLEDSimulator: 128x64 monochrome *)

Section OLED.

Variables fg bg : colour.

Definition OLED_init : PixelView colour := replicate 64 (replicate 128 bg).

(** The colour that bit [i] of a frame byte stands for. *)
Definition bit_colour (val : Z) (i : nat) : colour :=
  if Z.testbit val (Z.of_nat i) then fg else bg.

(** The [for i in range(8)] loop; the state is [(mv, mask)]. *)
Definition OLED_bits (y x : nat) (val : Z) (mv : PixelView colour)
  : result (PixelView colour * Z) :=
  for_ (range 0 8)
    (fun i '(mv, mask) =>
       let! mv' := setitem2 mv (y + i) x
                     (if Z.eqb (Z.land val mask) 0 then bg else fg) in
       Ok (mv', Z.shiftl mask 1))
    (mv, 1).

(** The [for x in range(128)] loop for one band. *)
Definition OLED_band (buf : bytes) (y : nat) (mv : PixelView colour)
  : result (PixelView colour) :=
  for_ (range 0 128)
    (fun x mv =>
       let! val := getitem buf (y * 128 / 8 + x) in
       let! r := OLED_bits y x val mv in
       Ok (fst r))
    mv.

(** The body of [new_contents] after the [read]. *)
Definition OLED_apply (mv : PixelView colour) (buf : option bytes)
  : result (PixelView colour) :=
  if negb (truthy buf) then Ok mv
  else
    let buf := last_slice 1024 (default [] buf) in
    if negb (length buf =? 1024)%nat then Raise AssertionError
    else for_ (range_step 0 64 8) (OLED_band buf) mv.

(** [OLEDSimulator.new_contents(readable)] with no movie recording. *)
Definition OLED_new_contents (mv : PixelView colour) (readable : bytes)
  : result (PixelView colour) * bytes :=
  let '(buf, rest) := read (1024 * 1000) readable in
  (OLED_apply mv buf, rest).

End OLED.

(** ** LCDSimulator: 320x240, 16-colour palette *)

Section LCD.

Variable palette : list colour.

(** [palette[i]] *)
Definition palette_get (i : Z) : result colour :=
  match palette !! Z.to_nat i with
  | Some c => Ok c
  | None => Raise IndexError
  end.

(** [struct.unpack('<4H', prefix)]: four little-endian 16-bit fields. *)
Definition unpack_4H (prefix : bytes) : result (nat * nat * nat * nat) :=
  match prefix with
  | [x0; x1; y0; y1; w0; w1; h0; h1] =>
      Ok (Z.to_nat (x0 + 256 * x1), Z.to_nat (y0 + 256 * y1),
          Z.to_nat (w0 + 256 * w1), Z.to_nat (h0 + 256 * h1))
  | _ => Raise StructError
  end.

(** The two nested pixel loops of one record; the state is [(mv, pos)]. *)
Definition LCD_row (here : bytes) (X w y : nat) (s : PixelView colour * nat)
  : result (PixelView colour * nat) :=
  for_ (range X (X + w))
    (fun x '(mv, pos) =>
       let! val := getitem here pos in
       let! c := palette_get (Z.land val 15) in
       let! mv' := setitem2 mv y x c in
       Ok (mv', S pos))
    s.

Definition LCD_fill (here : bytes) (X Y w h : nat) (mv : PixelView colour)
  : result (PixelView colour) :=
  let! r := for_ (range Y (Y + h)) (LCD_row here X w) (mv, O) in
  Ok (fst r).

(** One turn of the [while 1] loop, from after a non-empty header read up
    to the end of the pixel loops. *)
Definition LCD_record (mv : PixelView colour) (prefix rest : bytes)
  : result (PixelView colour * bytes) :=
  let! hdr := unpack_4H prefix in
  let '(X, Y, w, h) := hdr in
  if negb (X + w <=? 320)%nat then Raise AssertionError
  else if negb (Y + h <=? 240)%nat then Raise AssertionError
  else
    let sz := (w * h)%nat in
    let '(here, rest') := read sz rest in
    match here with
    | None => Raise TypeError
    | Some here =>
        if negb (length here =? sz)%nat then Raise AssertionError
        else
          let! mv' := LCD_fill here X Y w h mv in
          Ok (mv', rest')
    end.

(** The [while 1] loop. Every turn that does not return consumes the
    header bytes, so [fuel] above the number of pending bytes is never
    used up (lemma [LCD_loop_fuel]). *)
Fixpoint LCD_loop (fuel : nat) (mv : PixelView colour) (readable : bytes)
  : result (PixelView colour * bytes) :=
  match fuel with
  | O => Ok (mv, readable)
  | S fuel' =>
      let '(prefix, rest) := read 8 readable in
      if negb (truthy prefix) then Ok (mv, rest)
      else
        let! r := LCD_record mv (default [] prefix) rest in
        LCD_loop fuel' (fst r) (snd r)
  end.

(** [LCDSimulator.new_contents(readable)] *)
Definition LCD_new_contents (mv : PixelView colour) (readable : bytes)
  : result (PixelView colour * bytes) :=
  LCD_loop (S (length readable)) mv readable.

(** [LCDSimulator.click_to_key(x, y)] *)
Definition LCD_click_to_key (x y : Z) : option (list Z) := None.

(** The 320x240 sprite after [sdl2.ext.fill(s, self.palette[0])];
    [c0] is [palette[0]]. *)
Definition LCD_init (c0 : colour) : PixelView colour :=
  replicate 240 (replicate 320 c0).

End LCD.

End Screens.

(** [LCDSimulator.palette_colours], as 24-bit RGB values. *)
Definition palette_colours : list Z :=
  [0x000000; 0xffffff;
   0xff0000; 0x00ff00; 0x0000ff;
   0x555555; 0x999999; 0xdddddd; 0x111111; 0x151515; 0x191919; 0x1d1d1d;
   0x220000; 0x440000; 0x880000;
   0xf16422].

(** ** LED status byte (the [led_rx] branch of the poll loop) *)

(** [mask = (c >> 4) & 0xf; lset = c & 0xf; active_set = mask & lset] *)
Definition led_active_set (c : Z) : Z :=
  let mask := Z.land (Z.shiftr c 4) 15 in
  let lset := Z.land c 15 in
  Z.land mask lset.

(** The branch as a whole: [r.read(1)], nothing on an empty read,
    otherwise the new active set handed to [draw_leds]. *)
Definition led_readable (readable : bytes) : option Z * bytes :=
  let '(c, rest) := read 1 readable in
  if negb (truthy c) then (None, rest)
  else
    match default [] c with
    | c0 :: _ => (Some (led_active_set c0), rest)
    | [] => (None, rest)
    end.

(** ** Strings *)

(** A Python [str]: its code points. *)
Abbreviation pystr := (list Z).

(** [s in t] for two strings: substring test. *)
Fixpoint startswith (t s : pystr) : bool :=
  match s, t with
  | [], _ => true
  | a :: s', b :: t' => (a =? b) && startswith t' s'
  | _ :: _, [] => false
  end.

Fixpoint str_in (s t : pystr) : bool :=
  startswith t s ||
  match t with
  | [] => false
  | _ :: t' => str_in s t'
  end.

(** [f.find(ch)] for a one-character [ch]; [None] stands for -1. *)
Fixpoint find (c : Z) (f : pystr) : option nat :=
  match f with
  | [] => None
  | a :: f' => if a =? c then Some O else S <$> find c f'
  end.

(** UTF-8 bytes of one code point; lone surrogates cannot be encoded. *)
Definition utf8 (cp : Z) : result bytes :=
  if cp <? 128 then Ok [cp]
  else if cp <? 2048 then
    Ok [Z.lor 192 (Z.shiftr cp 6); Z.lor 128 (Z.land cp 63)]
  else if cp <? 65536 then
    if (55296 <=? cp) && (cp <=? 57343) then Raise UnicodeEncodeError
    else Ok [Z.lor 224 (Z.shiftr cp 12);
             Z.lor 128 (Z.land (Z.shiftr cp 6) 63);
             Z.lor 128 (Z.land cp 63)]
  else
    Ok [Z.lor 240 (Z.shiftr cp 18);
        Z.lor 128 (Z.land (Z.shiftr cp 12) 63);
        Z.lor 128 (Z.land (Z.shiftr cp 6) 63);
        Z.lor 128 (Z.land cp 63)].

(** [ch.encode()] *)
Fixpoint encode (s : pystr) : result bytes :=
  match s with
  | [] => Ok []
  | c :: s' =>
      let! b := utf8 c in
      let! bs := encode s' in
      Ok (b ++ bs)
  end.

(** ** Key translation *)

(** [shift_up(ch)] on the one character of [chr(sym)].
    [f] is 1234567890-= backslash backquote [ ] ; quote , . / and
    [t] is ! @ # $ % ^ & * ( ) _ + | ~ { } : doublequote < > ? *)
Definition shift_f : pystr :=
  [49; 50; 51; 52; 53; 54; 55; 56; 57; 48; 45; 61;
   92; 96; 91; 93; 59; 39; 44; 46; 47].
Definition shift_t : pystr :=
  [33; 64; 35; 36; 37; 94; 38; 42; 40; 41; 95; 43;
   124; 126; 123; 125; 58; 34; 60; 62; 63].

Definition shift_up (ch : Z) : Z :=
  if (97 <=? ch) && (ch <=? 122) then ch - 32
  else
    match find ch shift_f with
    | Some idx => default ch (shift_t !! idx)
    | None => ch
    end.

(** The constants of shared/charcodes.py used here; the module is loaded
    at run time and is a parameter of the model. *)
Record charcodes := {
  KEY_RIGHT : pystr; KEY_LEFT : pystr; KEY_DOWN : pystr; KEY_UP : pystr;
  KEY_HOME : pystr; KEY_END : pystr;
  KEY_PAGE_DOWN : pystr; KEY_PAGE_UP : pystr;
  KEY_F1 : pystr; KEY_F2 : pystr; KEY_F3 : pystr;
  KEY_F4 : pystr; KEY_F5 : pystr; KEY_F6 : pystr;
  KEY_NFC : pystr; KEY_QR : pystr; KEY_LAMP : pystr
}.

(** sdl2.scancode *)
Definition SDL_SCANCODE_F1 : Z := 58.
Definition SDL_SCANCODE_F2 : Z := 59.
Definition SDL_SCANCODE_F3 : Z := 60.
Definition SDL_SCANCODE_F4 : Z := 61.
Definition SDL_SCANCODE_F5 : Z := 62.
Definition SDL_SCANCODE_F6 : Z := 63.
Definition SDL_SCANCODE_HOME : Z := 74.
Definition SDL_SCANCODE_PAGEUP : Z := 75.
Definition SDL_SCANCODE_END : Z := 77.
Definition SDL_SCANCODE_PAGEDOWN : Z := 78.
Definition SDL_SCANCODE_RIGHT : Z := 79.
Definition SDL_SCANCODE_LEFT : Z := 80.
Definition SDL_SCANCODE_DOWN : Z := 81.
Definition SDL_SCANCODE_UP : Z := 82.

(** [OLEDSimulator.click_to_key(x, y)] *)
Definition KEYPAD_LEFT : Z := 52.
Definition KEYPAD_TOP : Z := 216.
Definition KEYPAD_PITCH : Z := 73.

Definition keypad : pystr :=
  [49; 50; 51; 52; 53; 54; 55; 56; 57; 120; 48; 121].

Definition OLED_click_to_key (x y : Z) : option pystr :=
  let col := (x - KEYPAD_LEFT) / KEYPAD_PITCH in
  let row := (y - KEYPAD_TOP) / KEYPAD_PITCH in
  if negb ((0 <=? row) && (row <? 4)) then None
  else if negb ((0 <=? col) && (col <? 3)) then None
  else (fun c => [c]) <$> keypad !! Z.to_nat (row * 3 + col).

Section Keys.

Variable q1_charmap : charcodes.

(** [scancode_remap(sc)] *)
Definition scancode_remap (sc : Z) : option pystr :=
  if sc =? SDL_SCANCODE_RIGHT then Some (KEY_RIGHT q1_charmap)
  else if sc =? SDL_SCANCODE_LEFT then Some (KEY_LEFT q1_charmap)
  else if sc =? SDL_SCANCODE_DOWN then Some (KEY_DOWN q1_charmap)
  else if sc =? SDL_SCANCODE_UP then Some (KEY_UP q1_charmap)
  else if sc =? SDL_SCANCODE_HOME then Some (KEY_HOME q1_charmap)
  else if sc =? SDL_SCANCODE_END then Some (KEY_END q1_charmap)
  else if sc =? SDL_SCANCODE_PAGEDOWN then Some (KEY_PAGE_DOWN q1_charmap)
  else if sc =? SDL_SCANCODE_PAGEUP then Some (KEY_PAGE_UP q1_charmap)
  else if sc =? SDL_SCANCODE_F1 then Some (KEY_F1 q1_charmap)
  else if sc =? SDL_SCANCODE_F2 then Some (KEY_F2 q1_charmap)
  else if sc =? SDL_SCANCODE_F3 then Some (KEY_F3 q1_charmap)
  else if sc =? SDL_SCANCODE_F4 then Some (KEY_F4 q1_charmap)
  else if sc =? SDL_SCANCODE_F5 then Some (KEY_F5 q1_charmap)
  else if sc =? SDL_SCANCODE_F6 then Some (KEY_F6 q1_charmap)
  else None.

(** [alt_up(ch)] *)
Definition alt_up (ch : pystr) : option pystr :=
  if decide (ch = [110]) then Some (KEY_NFC q1_charmap)
  else if decide (ch = [113]) then Some (KEY_QR q1_charmap)
  else if decide (ch = [108]) then Some (KEY_LAMP q1_charmap)
  else None.

(** ** The event loop of [start()] *)

Inductive event_type : Type :=
  | SDL_QUIT
  | SDL_KEYDOWN
  | SDL_KEYUP
  | SDL_MOUSEBUTTONDOWN
  | SDL_MOUSEBUTTONUP
  | SDL_OTHER.

(** The fields of an SDL event that the loop reads:
    [event.key.keysym.sym], [event.key.keysym.mod], [event.button.x] and
    [event.button.y]. *)
Record event := {
  ev_type : event_type;
  sym : Z;
  kmod : Z;
  button_x : Z;
  button_y : Z
}.

(** [event.type == sdl2.SDL_KEYDOWN] *)
Definition is_keydown (ev : event) : bool :=
  match ev_type ev with
  | SDL_KEYDOWN => true
  | _ => false
  end.

(** The control branches that call a collaborator or end the session. *)
Inductive action : Type :=
  | ControlQ
  | NfcRead
  | Snapshot
  | MovieStart
  | MovieEnd.

(** The locals of [start()] that event handling reads and writes:
    [running], [pressed], the bytes written to [numpad_tx] so far, and
    the control branches taken so far. *)
Record session := {
  running : bool;
  pressed : gset pystr;
  numpad_tx : bytes;
  trace : list action
}.

Definition initial : session :=
  {| running := true; pressed := ∅; numpad_tx := []; trace := [] |}.

Definition write (b : bytes) (st : session) : session :=
  {| running := running st; pressed := pressed st;
     numpad_tx := numpad_tx st ++ b; trace := trace st |}.

Definition set_pressed (p : gset pystr) (st : session) : session :=
  {| running := running st; pressed := p;
     numpad_tx := numpad_tx st; trace := trace st |}.

Definition log (a : action) (st : session) : session :=
  {| running := running st; pressed := pressed st;
     numpad_tx := numpad_tx st; trace := trace st ++ [a] |}.

Definition stop (st : session) : session :=
  {| running := false; pressed := pressed st;
     numpad_tx := numpad_tx st; trace := trace st |}.

(** [send_event(ch, is_down)]; [ch] is [None] when [alt_up] found no
    key. *)
Definition send_event (ch : option pystr) (is_down : bool) (st : session)
  : result session :=
  if is_down then
    match ch with
    | Some s =>
        if decide (s ∈ pressed st) then Ok st
        else
          let! b := encode s in
          Ok (set_pressed (pressed st ∪ {[s]}) (write b st))
    | None => Raise AttributeError
    end
  else
    let st1 :=
      match ch with
      | Some s => set_pressed (pressed st ∖ {[s]}) st
      | None => st
      end in
    if decide (pressed st1 = ∅) then Ok (write [0] st1) else Ok st1.

(** What a [for event in events] turn does next. *)
Inductive flow : Type :=
  | Continue
  | Break.

Variable is_q1 : bool.

(** The [try]/[except] block: the key's string, [Some None] when
    [alt_up] returned [None], or [None] when the event is skipped with
    [continue]. [chr] raises outside 0..0x10ffff. *)
Definition key_char (ev : event) : option (option pystr) :=
  if (0 <=? sym ev) && (sym ev <? 1114112) then
    let ch := sym ev in
    let ch := if Z.land (kmod ev) 3 =? 0 then ch else shift_up ch in
    if Z.land (kmod ev) 768 =? 0 then Some (Some [ch])
    else Some (alt_up [ch])
  else
    let scancode := Z.land (sym ev) 65535 in
    if is_q1 then
      match scancode_remap scancode with
      | Some (c :: s) => Some (Some (c :: s))
      | _ => None
      end
    else if (SDL_SCANCODE_RIGHT <=? scancode)
            && (scancode <=? SDL_SCANCODE_UP) then
      (fun c => Some [c])
        <$> [57; 55; 56; 53] !! Z.to_nat (scancode - SDL_SCANCODE_RIGHT)
    else None.

(** [for i in range(30): write(b'y\n'); write(b'\n')] *)
Definition many_ok (st : session) : session :=
  fold_left (fun st _ => write [10] (write [121; 10] st)) (seq 0 30) st.

(** The body of [if mod == 0x40 and type == SDL_KEYDOWN]; [None] for the
    flow means control falls out of the [if]. *)
Definition control_key (ch : option pystr) (st : session)
  : result (session * option flow) :=
  if decide (ch = Some [113]) then Ok (log ControlQ (stop st), Some Break)
  else
    let st := if decide (ch = Some [110]) then log NfcRead st else st in
    match ch with
    | None => Raise TypeError
    | Some s =>
        if str_in s [122; 115; 101] then
          let st := if decide (s = [122]) then log Snapshot st else st in
          let st := if decide (s = [115]) then log MovieStart st else st in
          let st := if decide (s = [101]) then log MovieEnd st else st in
          Ok (st, Some Continue)
        else if decide (s = [109]) then Ok (many_ok st, Some Continue)
        else Ok (st, None)
    end.

(** The ESC/Enter remap and the alphabet filter of the Mk4; [None] when
    the key is dropped with [continue]. *)
Definition mk4_key (ch : option pystr) : result (option pystr) :=
  let ch :=
    if decide (ch = Some [27]) then Some [120]
    else if decide (ch = Some [13]) then Some [121]
    else ch in
  match ch with
  | None => Raise TypeError
  | Some s =>
      if negb (str_in s [48; 49; 50; 51; 52; 53; 54; 55; 56; 57; 120; 121])
      then Ok None
      else Ok (Some s)
  end.

(** The [SDL_KEYUP]/[SDL_KEYDOWN] branch. *)
Definition handle_key (ev : event) (st : session) : result (session * flow) :=
  match key_char ev with
  | None => Ok (st, Continue)
  | Some ch =>
      let is_down := is_keydown ev in
      let! r := (if (kmod ev =? 64) && is_down then control_key ch st
                 else Ok (st, None)) in
      match r with
      | (st, Some fl) => Ok (st, fl)
      | (st, None) =>
          if kmod ev =? 64 then Ok (st, Continue)
          else if is_q1 then
            let! st := send_event ch is_down st in
            Ok (st, Continue)
          else
            let! k := mk4_key ch in
            match k with
            | None => Ok (st, Continue)
            | Some s =>
                let! st := send_event (Some s) is_down st in
                Ok (st, Continue)
            end
      end
  end.

(** [simdis.click_to_key] for the screen chosen at startup. *)
Definition click_to_key (x y : Z) : option pystr :=
  if is_q1 then LCD_click_to_key x y else OLED_click_to_key x y.

(** [for ch in l: send_event(ch, False)] *)
Fixpoint release (l : list pystr) (st : session) : result session :=
  match l with
  | [] => Ok st
  | ch :: l' =>
      let! st := send_event (Some ch) false st in
      release l' st
  end.

(** The body of [for event in events]. *)
Definition handle_event (st : session) (ev : event)
  : result (session * flow) :=
  match ev_type ev with
  | SDL_QUIT => Ok (stop st, Break)
  | SDL_KEYUP | SDL_KEYDOWN => handle_key ev st
  | SDL_MOUSEBUTTONDOWN =>
      match click_to_key (button_x ev) (button_y ev) with
      | Some ch =>
          let! st := send_event (Some ch) true st in
          Ok (st, Continue)
      | None => Ok (st, Continue)
      end
  | SDL_MOUSEBUTTONUP =>
      let! st := release (elements (pressed st)) st in
      Ok (st, Continue)
  | SDL_OTHER => Ok (st, Continue)
  end.

(** [for event in events: ...] for the events of one tick. *)
Fixpoint run_events (evs : list event) (st : session) : result session :=
  match evs with
  | [] => Ok st
  | ev :: evs' =>
      let! r := handle_event st ev in
      match snd r with
      | Break => Ok (fst r)
      | Continue => run_events evs' (fst r)
      end
  end.

(** [while running: ...], one list of events per tick. The channel
    polling between two ticks does not touch the session state. *)
Fixpoint run_session (ticks : list (list event)) (st : session)
  : result session :=
  match ticks with
  | [] => Ok st
  | evs :: ticks' =>
      if running st then
        let! st := run_events evs st in
        run_session ticks' st
      else Ok st
  end.

End Keys.

(** ** LED sprites ([draw_leds] of both screens) *)

(** The LED images a screen object may hold. *)
Inductive sprite : Type :=
  | led_red
  | led_green
  | led_sdcard
  | led_usb.

Definition GEN_LED : Z := 1.
Definition SD_LED : Z := 2.
Definition USB_LED : Z := 4.

(** [OLEDSimulator.draw_leds(spriterenderer, active_set)]: the sprites
    handed to [spriterenderer.render], in order. *)
Definition OLED_draw_leds (active_set : Z) : list sprite :=
  [if Z.land active_set GEN_LED =? 0 then led_red else led_green]
  ++ (if Z.land active_set SD_LED =? 0 then [] else [led_sdcard])
  ++ (if Z.land active_set USB_LED =? 0 then [] else [led_usb]).

(** [LCDSimulator.draw_leds(spriterenderer, active_set)]: the same
    statements, but [LCDSimulator.__init__] sets only [led_red] and
    [led_green], so reading [self.led_sdcard] or [self.led_usb] raises. *)
Definition LCD_draw_leds (active_set : Z) : result (list sprite) :=
  let rendered :=
    [if Z.land active_set GEN_LED =? 0 then led_red else led_green] in
  if negb (Z.land active_set SD_LED =? 0) then Raise AttributeError
  else if negb (Z.land active_set USB_LED =? 0) then Raise AttributeError
  else Ok rendered.

(** ** Vocabulary of the statements *)

(** A keyboard event; the button fields are not read for it. *)
Definition key_event (t : event_type) (s m : Z) : event :=
  {| ev_type := t; sym := s; kmod := m; button_x := 0; button_y := 0 |}.

(** A mouse event; the key fields are not read for it. *)
Definition mouse_event (t : event_type) (x y : Z) : event :=
  {| ev_type := t; sym := 0; kmod := 0; button_x := x; button_y := y |}.

(** The bytes of thirty turns of [write(b'y\n'); write(b'\n')]. *)
Definition many_ok_bytes : bytes :=
  concat (replicate 30 ([121; 10] ++ [10])).

(** Every constant of the charcodes module is one character long. *)
Definition one_char_codes (cm : charcodes) : Prop :=
  Forall (fun s : pystr => length s = 1%nat)
    [KEY_RIGHT cm; KEY_LEFT cm; KEY_DOWN cm; KEY_UP cm;
     KEY_HOME cm; KEY_END cm; KEY_PAGE_DOWN cm; KEY_PAGE_UP cm;
     KEY_F1 cm; KEY_F2 cm; KEY_F3 cm; KEY_F4 cm; KEY_F5 cm; KEY_F6 cm;
     KEY_NFC cm; KEY_QR cm; KEY_LAMP cm].

(** A charcodes table of distinct control characters, to run examples. *)
Definition sample_charmap : charcodes :=
  {| KEY_RIGHT := [4]; KEY_LEFT := [3]; KEY_DOWN := [6]; KEY_UP := [5];
     KEY_HOME := [1]; KEY_END := [2];
     KEY_PAGE_DOWN := [24]; KEY_PAGE_UP := [23];
     KEY_F1 := [14]; KEY_F2 := [15]; KEY_F3 := [16];
     KEY_F4 := [17]; KEY_F5 := [18]; KEY_F6 := [19];
     KEY_NFC := [20]; KEY_QR := [21]; KEY_LAMP := [22] |}.

(** What one event may do to the key-out channel according to the
    interface description: nothing, the code of a one-character key that
    enters the pressed set, or the zero byte when the pressed set goes
    from non-empty to empty. *)
Inductive described_write (st st' : session) : Prop :=
  | dw_none :
      numpad_tx st' = numpad_tx st ->
      described_write st st'
  | dw_key_down (c : Z) (code : bytes) :
      [c] ∉ pressed st ->
      pressed st' = pressed st ∪ {[ [c] ]} ->
      encode [c] = Ok code ->
      numpad_tx st' = numpad_tx st ++ code ->
      described_write st st'
  | dw_all_up :
      pressed st <> ∅ ->
      pressed st' = ∅ ->
      numpad_tx st' = numpad_tx st ++ [0] ->
      described_write st st'.


(** The colour that payload byte number [i] of a record stands for. *)
Definition payload_colour {colour} (palette : list colour) (here : bytes)
    (i : nat) : option colour :=
  v ← here !! i; palette !! Z.to_nat (Z.land v 15).

(** The device alphabet of the Mk4, as the filter of the key branch
    spells it. *)
Definition mk4_alphabet : pystr :=
  [48; 49; 50; 51; 52; 53; 54; 55; 56; 57; 120; 121].

(** Every key of the pressed set passes the Mk4 filter. *)
Definition mk4_keys_ok (st : session) : Prop :=
  forall s, s ∈ pressed st -> str_in s mk4_alphabet = true.

(** What one handled event does on the Mk4: no write and no new key; a
    key of the alphabet enters the set and its characters are written;
    the set is emptied and the zero byte written; or the control+m
    bytes are written. *)
Definition mk4_effect (cm : charcodes) (st st' : session) : Prop :=
  (numpad_tx st' = numpad_tx st /\ pressed st' ⊆ pressed st)
  \/ (exists s, str_in s mk4_alphabet = true /\
        (one_char_codes cm -> exists c, s = [c]) /\
        pressed st' = pressed st ∪ {[s]} /\
        numpad_tx st' = numpad_tx st ++ s)
  \/ (pressed st' = ∅ /\ numpad_tx st' = numpad_tx st ++ [0])
  \/ (pressed st' = pressed st /\
      numpad_tx st' = numpad_tx st ++ many_ok_bytes).

(** Bytes the Mk4 simulator may write to key-out. *)
Definition mk4_byte (b : Z) : Prop := b ∈ mk4_alphabet \/ b = 0 \/ b = 10.

(** While a key is held, the last byte on key-out is not the all-up
    byte. *)
Definition held_keys_signalled (st : session) : Prop :=
  pressed st <> ∅ -> last (numpad_tx st) <> Some 0.

(** The key an event stands for once the key translation is done: for a
    key event the result of the [try]/[except] block, passed through the
    Mk4 remap and filter when not on the Q1; for a mouse-button-down the
    result of [click_to_key]. *)
Definition translated_key (cm : charcodes) (q1 : bool) (ev : event)
  : option pystr :=
  match ev_type ev with
  | SDL_KEYDOWN | SDL_KEYUP =>
      match key_char cm q1 ev with
      | Some ch =>
          if q1 then ch
          else match mk4_key ch with
               | Ok k => k
               | Raise _ => None
               end
      | None => None
      end
  | SDL_MOUSEBUTTONDOWN => click_to_key q1 (button_x ev) (button_y ev)
  | _ => None
  end.

(** What one event does to the key-out channel in the code.
    - Nothing is written.
    - On a key-down with [mod != 0x40] or a mouse-button-down, the
      one-character key the event translates to enters the pressed set
      and its UTF-8 bytes are written; on the Mk4 the key is in the
      device alphabet and the bytes are that one character.
    - On a key-up with [mod != 0x40] after which the pressed set is
      empty, the zero byte is written.
    - On a mouse-button-up that empties a non-empty pressed set, the zero
      byte is written.
    - On a key-down of m with [mod == 0x40], [many_ok_bytes] is
      written. *)
Inductive key_out_write (cm : charcodes) (q1 : bool) (ev : event)
    (st st' : session) : Prop :=
  | kw_none :
      numpad_tx st' = numpad_tx st ->
      key_out_write cm q1 ev st st'
  | kw_key_down (c : Z) (code : bytes) :
      (ev_type ev = SDL_KEYDOWN /\ kmod ev <> 64)
        \/ ev_type ev = SDL_MOUSEBUTTONDOWN ->
      translated_key cm q1 ev = Some [c] ->
      [c] ∉ pressed st ->
      pressed st' = pressed st ∪ {[ [c] ]} ->
      encode [c] = Ok code ->
      (q1 = false -> c ∈ mk4_alphabet /\ code = [c]) ->
      numpad_tx st' = numpad_tx st ++ code ->
      key_out_write cm q1 ev st st'
  | kw_key_up :
      ev_type ev = SDL_KEYUP ->
      kmod ev <> 64 ->
      pressed st' = ∅ ->
      numpad_tx st' = numpad_tx st ++ [0] ->
      key_out_write cm q1 ev st st'
  | kw_mouse_up :
      ev_type ev = SDL_MOUSEBUTTONUP ->
      pressed st <> ∅ ->
      pressed st' = ∅ ->
      numpad_tx st' = numpad_tx st ++ [0] ->
      key_out_write cm q1 ev st st'
  | kw_many_ok :
      ev_type ev = SDL_KEYDOWN ->
      kmod ev = 64 ->
      key_char cm q1 ev = Some (Some [109]) ->
      pressed st' = pressed st ->
      numpad_tx st' = numpad_tx st ++ many_ok_bytes ->
      key_out_write cm q1 ev st st'.

(** Any number of such events in a row. *)
Inductive key_out_run (cm : charcodes) (q1 : bool)
  : session -> session -> Prop :=
  | kr_done st : key_out_run cm q1 st st
  | kr_event ev st st1 st2 :
      key_out_write cm q1 ev st st1 ->
      key_out_run cm q1 st1 st2 ->
      key_out_run cm q1 st st2.

(** * Properties *)

(** ** Loops *)

Lemma for_map {S} (f : nat -> nat) l (body : nat -> S -> result S) s :
  for_ (map f l) body s = for_ l (fun i => body (f i)) s.
Proof.
  revert s; induction l as [|i l IH]; intros s; simpl; [done|].
  destruct (body (f i) s); simpl; auto.
Qed.

(** Invariant rule for a counted loop: [I i] holds before turn [i]. *)
Lemma for_seq_inv {S} (I : nat -> S -> Prop) body a n (s : S) :
  I a s ->
  (forall i s, (a <= i < a + n)%nat -> I i s ->
     exists s', body i s = Ok s' /\ I (Datatypes.S i) s') ->
  exists s', for_ (seq a n) body s = Ok s' /\ I (a + n)%nat s'.
Proof.
  revert a s; induction n as [|n IH]; intros a s Ha Hstep; simpl.
  - exists s. by rewrite Nat.add_0_r.
  - destruct (Hstep a s) as (s1 & Hb & H1); [lia|done|].
    rewrite Hb; simpl.
    destruct (IH (Datatypes.S a) s1) as (s2 & Hf & H2); [done| |].
    + intros i s' Hi. apply Hstep. lia.
    + exists s2. split; [done|]. by replace (a + Datatypes.S n)%nat
        with (Datatypes.S a + n)%nat by lia.
Qed.

(** ** Slices and reads *)

Lemma last_slice_length n (buf : bytes) :
  length (last_slice n buf) = Nat.min n (length buf).
Proof. unfold last_slice. rewrite length_drop. lia. Qed.

Lemma last_slice_all n (buf : bytes) :
  (length buf <= n)%nat -> last_slice n buf = buf.
Proof.
  intros H. unfold last_slice.
  by replace (length buf - n)%nat with O by lia.
Qed.

Lemma last_slice_app n (a b : bytes) :
  length b = n -> last_slice n (a ++ b) = b.
Proof.
  intros H. unfold last_slice. rewrite length_app.
  replace (length a + length b - n)%nat with (length a) by lia.
  by rewrite drop_app_length.
Qed.

Lemma truthy_Some (data : bytes) :
  truthy (Some data) = negb (length data =? 0)%nat.
Proof. by destruct data. Qed.

(** ** Pixel views *)

Section ScreenFacts.

Context {colour : Type}.
Implicit Types mv : PixelView colour.

Lemma setitem2_spec h w mv y x v :
  dims h w mv -> (y < h)%nat -> (x < w)%nat ->
  exists mv', setitem2 mv y x v = Ok mv' /\ dims h w mv' /\
    forall r c, pixel mv' r c =
      if decide (r = y /\ c = x) then Some v else pixel mv r c.
Proof.
  intros [Hlen Hrows] Hy Hx. unfold setitem2.
  destruct (mv !! y) as [row|] eqn:Hrow.
  2:{ apply lookup_ge_None in Hrow. lia. }
  assert (length row = w) as Hw.
  { by apply (Forall_lookup_1 _ _ _ _ Hrows Hrow). }
  rewrite decide_True by lia.
  eexists; split; [done|]. split.
  - unfold dims. rewrite length_insert. split; [done|].
    apply Forall_insert; [done|]. by rewrite length_insert.
  - intros r c. unfold pixel.
    destruct (decide (r = y)) as [->|Hne].
    + rewrite list_lookup_insert_eq by lia. simpl.
      destruct (decide (c = x)) as [->|Hc].
      * rewrite decide_True by done.
        by rewrite list_lookup_insert_eq by lia.
      * rewrite decide_False by tauto.
        rewrite list_lookup_insert_ne by done. by rewrite Hrow.
    + rewrite decide_False by tauto.
      by rewrite list_lookup_insert_ne by done.
Qed.

End ScreenFacts.

(** ** Bit masks *)

Lemma land_pow2_eqb (v : Z) (i : nat) :
  (Z.land v (2 ^ Z.of_nat i) =? 0) = negb (Z.testbit v (Z.of_nat i)).
Proof.
  destruct (Z.testbit v (Z.of_nat i)) eqn:Hb; simpl.
  - apply Z.eqb_neq. intros H0.
    assert (Z.testbit (Z.land v (2 ^ Z.of_nat i)) (Z.of_nat i) = true) as Ht.
    { rewrite Z.land_spec, Hb, Z.pow2_bits_eqb by lia.
      by rewrite Z.eqb_refl. }
    rewrite H0, Z.bits_0 in Ht. discriminate.
  - apply Z.eqb_eq, Z.bits_inj'. intros n Hn.
    rewrite Z.land_spec, Z.bits_0, Z.pow2_bits_eqb by lia.
    destruct (Z.eqb_spec (Z.of_nat i) n) as [<-|_].
    + by rewrite Hb.
    + apply andb_false_r.
Qed.

Lemma shiftl_pow2 (i : nat) :
  Z.shiftl (2 ^ Z.of_nat i) 1 = 2 ^ Z.of_nat (S i).
Proof.
  rewrite Z.shiftl_mul_pow2 by lia.
  rewrite Nat2Z.inj_succ, Z.pow_succ_r by lia. lia.
Qed.

(** ** The monochrome decoder *)

Section OLEDFacts.

Context {colour : Type}.
Variables fg bg : colour.
Implicit Types mv : PixelView colour.

Lemma OLED_bits_spec mv y x val :
  dims 64 128 mv -> (y + 8 <= 64)%nat -> (x < 128)%nat ->
  exists mv' m, OLED_bits fg bg y x val mv = Ok (mv', m) /\
    dims 64 128 mv' /\
    forall r c, pixel mv' r c =
      if decide (c = x /\ (y <= r < y + 8)%nat)
      then Some (bit_colour fg bg val (r - y)) else pixel mv r c.
Proof.
  intros Hd Hy Hx. unfold OLED_bits, range.
  pose (I := fun (i : nat) (s : PixelView colour * Z) =>
    snd s = 2 ^ Z.of_nat i /\ dims 64 128 (fst s) /\
    forall r c, pixel (fst s) r c =
      if decide (c = x /\ (y <= r < y + i)%nat)
      then Some (bit_colour fg bg val (r - y)) else pixel mv r c).
  destruct (for_seq_inv I
    (fun i '(mv, mask) =>
       let! mv' := setitem2 mv (y + i) x
                     (if Z.eqb (Z.land val mask) 0 then bg else fg) in
       Ok (mv', Z.shiftl mask 1)) 0 8 (mv, 1)) as ([mv' m] & Hf & _ & Hd' & Hp).
  - split; [done|]. split; [done|]. intros r c; simpl.
    rewrite decide_False by lia. done.
  - intros i [mv1 mask] Hi (Hm & Hd1 & Hp1); simpl in *. subst mask.
    destruct (setitem2_spec 64 128 mv1 (y + i) x
      (if Z.land val (2 ^ Z.of_nat i) =? 0 then bg else fg) Hd1)
      as (mv2 & Hs & Hd2 & Hp2); [lia|lia|].
    rewrite Hs; simpl. eexists; split; [done|]. simpl.
    split; [apply shiftl_pow2|]. split; [done|].
    intros r c. rewrite Hp2, Hp1.
    destruct (decide (r = (y + i)%nat /\ c = x)) as [[-> ->]|Hne].
    + rewrite decide_True by lia.
      rewrite land_pow2_eqb. unfold bit_colour.
      replace (y + i - y)%nat with i by lia.
      by destruct (Z.testbit val (Z.of_nat i)).
    + destruct (decide (c = x /\ (y <= r < y + i)%nat)) as [H1|H1].
      * rewrite decide_True by lia. done.
      * rewrite decide_False by lia. done.
  - exists mv', m. simpl in *. done.
Qed.

Lemma OLED_band_spec buf mv y :
  dims 64 128 mv -> (y + 8 <= 64)%nat -> length buf = 1024%nat ->
  exists mv', OLED_band fg bg buf y mv = Ok mv' /\ dims 64 128 mv' /\
    forall r c, pixel mv' r c =
      if decide ((c < 128)%nat /\ (y <= r < y + 8)%nat)
      then (fun v => bit_colour fg bg v (r - y)) <$> buf !! (y * 128 / 8 + c)%nat
      else pixel mv r c.
Proof.
  intros Hd Hy Hlen. unfold OLED_band, range.
  pose (I := fun (x : nat) (m : PixelView colour) =>
    dims 64 128 m /\
    forall r c, pixel m r c =
      if decide ((c < x)%nat /\ (y <= r < y + 8)%nat)
      then (fun v => bit_colour fg bg v (r - y)) <$> buf !! (y * 128 / 8 + c)%nat
      else pixel mv r c).
  assert (y * 128 / 8 <= 896)%nat as Hidx.
  { apply Nat.Div0.div_le_upper_bound. lia. }
  destruct (for_seq_inv I
    (fun x mv =>
       let! val := getitem buf (y * 128 / 8 + x) in
       let! r := OLED_bits fg bg y x val mv in
       Ok (fst r)) 0 128 mv) as (mv' & Hf & Hd' & Hp).
  - split; [done|]. intros r c. rewrite decide_False by lia. done.
  - intros x mv1 Hx (Hd1 & Hp1).
    destruct (lookup_lt_is_Some_2 buf (y * 128 / 8 + x)) as [val Hval];
      [lia|].
    cbv beta. unfold getitem. rewrite Hval; simpl.
    destruct (OLED_bits_spec mv1 y x val Hd1 Hy) as (mv2 & m & Hb & Hd2 & Hp2);
      [lia|].
    rewrite Hb; simpl. eexists; split; [done|]. split; [done|].
    intros r c. rewrite Hp2, Hp1.
    destruct (decide (c = x /\ (y <= r < y + 8)%nat)) as [[-> Hr]|Hne].
    + rewrite decide_True by lia. by rewrite Hval.
    + destruct (decide ((c < x)%nat /\ (y <= r < y + 8)%nat)) as [H1|H1].
      * rewrite decide_True by lia. done.
      * rewrite decide_False by lia. done.
  - exists mv'. done.
Qed.

(** The three loops write every pixel of a 64x128 view from the frame. *)
Lemma OLED_frame_spec buf mv :
  dims 64 128 mv -> length buf = 1024%nat ->
  exists mv', for_ (range_step 0 64 8) (OLED_band fg bg buf) mv = Ok mv' /\
    dims 64 128 mv' /\
    forall r c, (r < 64)%nat -> (c < 128)%nat ->
      pixel mv' r c =
        (fun v => bit_colour fg bg v (r mod 8)) <$> buf !! (r / 8 * 128 + c)%nat.
Proof.
  intros Hd Hlen.
  change (range_step 0 64 8) with (map (fun k => 0 + k * 8)%nat (seq 0 8)).
  rewrite for_map.
  pose (I := fun (k : nat) (m : PixelView colour) =>
    dims 64 128 m /\
    forall r c, pixel m r c =
      if decide ((c < 128)%nat /\ (r < 8 * k)%nat)
      then (fun v => bit_colour fg bg v (r mod 8)) <$> buf !! (r / 8 * 128 + c)%nat
      else pixel mv r c).
  destruct (for_seq_inv I (fun i => OLED_band fg bg buf (0 + i * 8)) 0 8 mv)
    as (mv' & Hf & Hd' & Hp).
  - split; [done|]. intros r c. rewrite decide_False by lia. done.
  - intros k mv1 Hk (Hd1 & Hp1).
    destruct (OLED_band_spec buf mv1 (0 + k * 8) Hd1) as (mv2 & Hb & Hd2 & Hp2);
      [lia|done|].
    exists mv2. split; [done|]. split; [done|].
    intros r c. rewrite Hp2, Hp1.
    destruct (decide ((c < 128)%nat /\
                      (0 + k * 8 <= r < 0 + k * 8 + 8)%nat)) as [[Hc Hr]|Hne].
    + rewrite decide_True by lia.
      assert (r / 8 = k)%nat as Hq.
      { symmetry. apply (Nat.div_unique r 8 k (r - k * 8)); lia. }
      assert (r mod 8 = r - (0 + k * 8))%nat as Hm.
      { symmetry. apply (Nat.mod_unique r 8 k (r - (0 + k * 8))); lia. }
      assert ((0 + k * 8) * 128 / 8 = k * 128)%nat as Hb8.
      { replace ((0 + k * 8) * 128)%nat with (k * 128 * 8)%nat by lia.
        apply Nat.div_mul. lia. }
      by rewrite Hq, Hm, Hb8.
    + destruct (decide ((c < 128)%nat /\ (r < 8 * k)%nat)) as [H1|H1].
      * rewrite decide_True by lia. done.
      * rewrite decide_False by lia. done.
  - exists mv'. split; [done|]. split; [done|].
    intros r c Hr Hc. rewrite Hp. rewrite decide_True by lia. done.
Qed.

End OLEDFacts.

Lemma OLED_init_dims {colour} (bg : colour) : dims 64 128 (OLED_init bg).
Proof.
  split; [apply length_replicate|].
  apply Forall_replicate, length_replicate.
Qed.

Lemma OLED_apply_frame {colour} (fg bg : colour) mv (data : bytes) :
  (1024 <= length data)%nat ->
  OLED_apply fg bg mv (Some data) =
    for_ (range_step 0 64 8) (OLED_band fg bg (last_slice 1024 data)) mv.
Proof.
  intros Hlen. unfold OLED_apply. rewrite truthy_Some.
  destruct (Nat.eqb_spec (length data) 0) as [H0|_]; [lia|]. simpl.
  rewrite last_slice_length.
  destruct (Nat.eqb_spec (Nat.min 1024 (length data)) 1024) as [_|Hne];
    [done|lia].
Qed.

Lemma OLED_apply_short {colour} (fg bg : colour) mv (data : bytes) :
  (0 < length data < 1024)%nat ->
  OLED_apply fg bg mv (Some data) = Raise AssertionError.
Proof.
  intros Hlen. unfold OLED_apply. rewrite truthy_Some.
  destruct (Nat.eqb_spec (length data) 0) as [H0|_]; [lia|]. simpl.
  rewrite last_slice_length.
  destruct (Nat.eqb_spec (Nat.min 1024 (length data)) 1024) as [He|_];
    [lia|done].
Qed.

Lemma OLED_apply_empty {colour} (fg bg : colour) mv (buf : option bytes) :
  truthy buf = false -> OLED_apply fg bg mv buf = Ok mv.
Proof. intros H. unfold OLED_apply. by rewrite H. Qed.

Lemma read_all n (pipe : bytes) :
  n <> O -> pipe <> [] -> (length pipe <= n)%nat ->
  read n pipe = (Some pipe, []).
Proof.
  intros Hn Hp Hl. unfold read.
  destruct n as [|n]; [done|]. destruct pipe as [|b pipe]; [done|].
  by rewrite take_ge, drop_ge by done.
Qed.

Lemma OLED_new_contents_all {colour} (fg bg : colour) mv (pipe : bytes) :
  pipe <> [] -> (length pipe <= 1024 * 1000)%nat ->
  OLED_new_contents fg bg mv pipe = (OLED_apply fg bg mv (Some pipe), []).
Proof.
  intros Hp Hl. unfold OLED_new_contents.
  rewrite read_all; [done| |done|done].
  intros H0. destruct pipe; [done|]. rewrite H0 in Hl. simpl in Hl. lia.
Qed.

(** C2: on a 64x128 view, when a read returns more than 1024 bytes the
    monochrome decoder succeeds and the view it leaves is the one decoded
    from the last 1024 bytes of the data alone: every pixel (r, c) shows
    bit (r mod 8) of byte (r div 8)*128 + c of those last 1024 bytes, so
    the bytes before them have no effect, and for data made of two
    1024-byte halves the view is the one decoded from the second half.
    The same holds for [new_contents] on a pipe holding that data. *)
Theorem OLED_backlog_uses_last_frame {colour} (fg bg : colour)
    (mv : PixelView colour) (data : bytes)
    (Hmv : dims 64 128 mv)
    (Hlen : (1024 < length data)%nat) :
  exists mv',
    OLED_apply fg bg mv (Some data) = Ok mv'
    /\ OLED_apply fg bg mv (Some (last_slice 1024 data)) = Ok mv'
    /\ length (last_slice 1024 data) = 1024%nat
    /\ dims 64 128 mv'
    /\ (forall r c, (r < 64)%nat -> (c < 128)%nat ->
          pixel mv' r c
            = (fun v => bit_colour fg bg v (r mod 8))
                <$> last_slice 1024 data !! (r / 8 * 128 + c)%nat)
    /\ (forall older frame : bytes,
          data = older ++ frame -> length frame = 1024%nat ->
          OLED_apply fg bg mv (Some frame) = Ok mv'
          /\ forall r c, (r < 64)%nat -> (c < 128)%nat ->
               pixel mv' r c
                 = (fun v => bit_colour fg bg v (r mod 8))
                     <$> frame !! (r / 8 * 128 + c)%nat)
    /\ (forall first second : bytes,
          data = first ++ second ->
          length first = 1024%nat -> length second = 1024%nat ->
          OLED_apply fg bg mv (Some second) = Ok mv'
          /\ forall r c, (r < 64)%nat -> (c < 128)%nat ->
               pixel mv' r c
                 = (fun v => bit_colour fg bg v (r mod 8))
                     <$> second !! (r / 8 * 128 + c)%nat)
    /\ ((length data <= 1024 * 1000)%nat ->
        OLED_new_contents fg bg mv data = (Ok mv', [])).
Proof.
  assert (length (last_slice 1024 data) = 1024%nat) as Hl.
  { rewrite last_slice_length. lia. }
  destruct (OLED_frame_spec fg bg (last_slice 1024 data) mv Hmv Hl)
    as (mv' & Hf & Hd & Hp).
  assert (OLED_apply fg bg mv (Some data) = Ok mv') as Hdata.
  { by rewrite OLED_apply_frame by lia. }
  assert (forall older frame : bytes,
    data = older ++ frame -> length frame = 1024%nat ->
    OLED_apply fg bg mv (Some frame) = Ok mv'
    /\ forall r c, (r < 64)%nat -> (c < 128)%nat ->
         pixel mv' r c
           = (fun v => bit_colour fg bg v (r mod 8))
               <$> frame !! (r / 8 * 128 + c)%nat) as Hfr.
  { intros older frame Hd' Hfl.
    assert (last_slice 1024 data = frame) as Hsl.
    { rewrite Hd'. by apply last_slice_app. }
    rewrite Hsl in Hf, Hp. split; [|done].
    rewrite OLED_apply_frame by lia.
    by rewrite (last_slice_all 1024 frame) by lia. }
  exists mv'. split; [done|]. split.
  { rewrite OLED_apply_frame by lia.
    by rewrite (last_slice_all 1024 (last_slice 1024 data)) by lia. }
  split; [done|]. split; [done|]. split; [done|]. split; [done|]. split.
  - intros first second Hd' _ Hs. by apply (Hfr first).
  - intros Hcap. rewrite OLED_new_contents_all; [by rewrite Hdata| |done].
    intros ->. simpl in Hlen. lia.
Qed.

Lemma OLED_backlog_uses_last_frame_witness :
  exists mv',
    OLED_apply 1 0 (OLED_init 0)
      (Some (replicate 1024 0 ++ replicate 1024 255)) = Ok mv'
    /\ OLED_apply 1 0 (OLED_init 0) (Some (replicate 1024 255)) = Ok mv'
    /\ pixel mv' 10 5 = Some 1
    /\ pixel (OLED_init 0) 10 5 = Some 0.
Proof.
  destruct (OLED_backlog_uses_last_frame 1 0 (OLED_init 0)
              (replicate 1024 0 ++ replicate 1024 255))
    as (mv' & Hdata & _ & _ & _ & _ & _ & Hhalves & _).
  - split; [apply length_replicate|].
    apply Forall_replicate, length_replicate.
  - rewrite length_app, !length_replicate. lia.
  - destruct (Hhalves (replicate 1024 0) (replicate 1024 255))
      as [Hsecond Hpx].
    + reflexivity.
    + apply length_replicate.
    + apply length_replicate.
    + exists mv'. split; [exact Hdata|]. split; [exact Hsecond|].
      split; [|reflexivity].
      rewrite (Hpx 10%nat 5%nat) by lia. reflexivity.
Defined.

(** C3: after decoding a 1024-byte frame, the pixel at row r < 64 and
    column c < 128 is the foreground colour when bit (r mod 8), counted
    from the least significant bit, of frame byte (r div 8)*128 + c is 1,
    and the background colour when it is 0. *)
Theorem OLED_pixel_layout {colour} (fg bg : colour)
    (mv : PixelView colour) (frame : bytes) (r c : nat) (b : Z)
    (Hmv : dims 64 128 mv)
    (Hlen : length frame = 1024%nat)
    (Hr : (r < 64)%nat) (Hc : (c < 128)%nat)
    (Hb : frame !! (r / 8 * 128 + c)%nat = Some b) :
  exists mv',
    OLED_apply fg bg mv (Some frame) = Ok mv'
    /\ OLED_new_contents fg bg mv frame = (Ok mv', [])
    /\ dims 64 128 mv'
    /\ pixel mv' r c
       = Some (if Z.testbit b (Z.of_nat (r mod 8)) then fg else bg).
Proof.
  rewrite OLED_new_contents_all;
    [|intros ->; simpl in Hlen; lia|rewrite Hlen; lia].
  rewrite OLED_apply_frame by lia.
  rewrite last_slice_all by lia.
  destruct (OLED_frame_spec fg bg frame mv Hmv Hlen) as (mv' & Hf & Hd & Hp).
  exists mv'. split; [done|]. split; [by rewrite Hf|]. split; [done|].
  rewrite (Hp r c Hr Hc), Hb. done.
Qed.

Lemma OLED_pixel_layout_witness :
  exists mv',
    OLED_apply 1 0 (OLED_init 0) (Some (replicate 1024 4)) = Ok mv'
    /\ OLED_new_contents 1 0 (OLED_init 0) (replicate 1024 4) = (Ok mv', [])
    /\ dims 64 128 mv'
    /\ pixel mv' 10 5 = Some (if Z.testbit 4 (Z.of_nat (10 mod 8)) then 1 else 0).
Proof.
  apply (OLED_pixel_layout 1 0 (OLED_init 0) (replicate 1024 4) 10 5 4).
  - split; [reflexivity|]. vm_compute. repeat constructor.
  - reflexivity.
  - lia.
  - lia.
  - reflexivity.
Defined.

(** C4: on a 64x128 view the monochrome decoder raises exactly when the
    read returned a non-empty byte string of fewer than 1024 bytes (its
    trailing slice is then shorter than 1024); the error is the failed
    length assertion. When the read returned nothing the view is left
    unchanged and nothing is raised. *)
Theorem OLED_error_iff_short_frame {colour} (fg bg : colour)
    (mv : PixelView colour) (buf : option bytes)
    (Hmv : dims 64 128 mv) :
  (is_raise (OLED_apply fg bg mv buf) <->
     exists data, buf = Some data /\ (0 < length data < 1024)%nat)
  /\ (is_raise (OLED_apply fg bg mv buf) <->
     exists data, buf = Some data /\ data <> [] /\
       (length (last_slice 1024 data) < 1024)%nat)
  /\ (is_raise (OLED_apply fg bg mv buf) ->
      OLED_apply fg bg mv buf = Raise AssertionError)
  /\ (truthy buf = false -> OLED_apply fg bg mv buf = Ok mv)
  /\ OLED_new_contents fg bg mv [] = (Ok mv, [])
  /\ (forall pipe : bytes, (length pipe <= 1024 * 1000)%nat ->
        (is_raise (fst (OLED_new_contents fg bg mv pipe)) <->
           (0 < length pipe < 1024)%nat)).
Proof.
  assert (is_raise (OLED_apply fg bg mv buf) <->
     exists data, buf = Some data /\ (0 < length data < 1024)%nat) as Hiff.
  { split.
    - intros Hr. destruct buf as [data|].
      2:{ rewrite OLED_apply_empty in Hr by done. destruct Hr. }
      exists data. split; [done|].
      destruct (decide (length data = 0%nat)) as [H0|H0].
      { destruct data; [|done].
        rewrite OLED_apply_empty in Hr by done. destruct Hr. }
      destruct (decide (length data < 1024)%nat) as [|Hge]; [lia|].
      exfalso. rewrite OLED_apply_frame in Hr by lia.
      destruct (OLED_frame_spec fg bg (last_slice 1024 data) mv Hmv)
        as (mv' & Hf & _).
      { rewrite last_slice_length. lia. }
      rewrite Hf in Hr. destruct Hr.
    - intros (data & -> & Hl). by rewrite OLED_apply_short. }
  split; [done|]. split; [|split; [|split; [|split]]].
  - rewrite Hiff. split; intros (data & -> & H); exists data; (split; [done|]).
    + rewrite last_slice_length. split; [|lia].
      intros ->. simpl in H. lia.
    + destruct H as [Hne H]. rewrite last_slice_length in H.
      destruct data; [done|]. cbn [length] in *. lia.
  - intros Hr. apply Hiff in Hr as (data & -> & Hl).
    by apply OLED_apply_short.
  - apply OLED_apply_empty.
  - reflexivity.
  - intros pipe Hcap. destruct pipe as [|b0 pipe].
    + simpl. split; [done|lia].
    + rewrite OLED_new_contents_all by done. cbn [fst]. split.
      * intros Hr. destruct (decide (length (b0 :: pipe) < 1024)%nat) as [Hlt|Hge].
        { split; [simpl; lia|done]. }
        exfalso. rewrite OLED_apply_frame in Hr by lia.
        destruct (OLED_frame_spec fg bg (last_slice 1024 (b0 :: pipe))
                    mv Hmv) as (mv' & Hf & _).
        { rewrite last_slice_length. lia. }
        rewrite Hf in Hr. destruct Hr.
      * intros Hl. by rewrite OLED_apply_short.
Qed.

Lemma OLED_error_iff_short_frame_witness :
  dims 64 128 (OLED_init 0)
  /\ (is_raise (OLED_apply 1 0 (OLED_init 0) (Some [1; 2; 3])) <->
      exists data, Some [1; 2; 3] = Some data /\ (0 < length data < 1024)%nat).
Proof.
  assert (dims 64 128 (OLED_init 0)) as Hd.
  { split; [reflexivity|]. vm_compute. repeat constructor. }
  split; [exact Hd|].
  apply (OLED_error_iff_short_frame 1 0 (OLED_init 0) (Some [1; 2; 3]) Hd).
Defined.

(** ** The indexed decoder *)

Lemma read_length n (pipe : bytes) b rest :
  read n pipe = (b, rest) -> (length rest <= length pipe)%nat.
Proof.
  unfold read. destruct n, pipe; intros [= <- <-]; simpl; try lia.
  rewrite length_drop. lia.
Qed.

Lemma read_shrinks n (pipe : bytes) b rest :
  read n pipe = (b, rest) -> truthy b = true ->
  (length rest < length pipe)%nat.
Proof.
  unfold read. destruct n, pipe; intros [= <- <-]; simpl; try done.
  intros _. rewrite length_drop. lia.
Qed.

Lemma read_exact (a rest : bytes) :
  a <> [] -> read (length a) (a ++ rest) = (Some a, rest).
Proof.
  intros Ha. unfold read. destruct a as [|x a]; [done|].
  simpl. by rewrite take_app_length, drop_app_length.
Qed.

Lemma for_skip {S} l (body : nat -> S -> result S) s :
  (forall i s, body i s = Ok s) -> for_ l body s = Ok s.
Proof.
  intros Hb. induction l as [|i l IH]; simpl; [done|].
  by rewrite Hb.
Qed.

#[local] Arguments read : simpl never.

Section LCDFacts.

Context {colour : Type}.
Variable palette : list colour.
Implicit Types mv : PixelView colour.

Lemma LCD_record_length mv prefix rest mv' rest' :
  LCD_record palette mv prefix rest = Ok (mv', rest') ->
  (length rest' <= length rest)%nat.
Proof.
  unfold LCD_record. destruct (unpack_4H prefix) as [[[[X Y] w] h]|]; simpl;
    [|done].
  destruct (X + w <=? 320)%nat; simpl; [|done].
  destruct (Y + h <=? 240)%nat; simpl; [|done].
  destruct (read (w * h) rest) as [here r'] eqn:Hread.
  destruct here as [here|]; [|done].
  destruct (length here =? w * h)%nat; simpl; [|done].
  destruct (LCD_fill palette here X Y w h mv); simpl; [|done].
  intros [= <- <-]. by eapply read_length.
Qed.

(** Fuel above the number of pending bytes is never used up. *)
Lemma LCD_loop_fuel fuel1 fuel2 mv (readable : bytes) :
  (length readable < fuel1)%nat -> (length readable < fuel2)%nat ->
  LCD_loop palette fuel1 mv readable = LCD_loop palette fuel2 mv readable.
Proof.
  revert fuel2 mv readable.
  induction fuel1 as [|fuel1 IH]; intros fuel2 mv readable H1 H2; [lia|].
  destruct fuel2 as [|fuel2]; [lia|]. simpl.
  destruct (read 8 readable) as [prefix rest] eqn:Hread.
  destruct (truthy prefix) eqn:Ht; simpl; [|done].
  pose proof (read_shrinks _ _ _ _ Hread Ht) as Hlt.
  destruct (LCD_record palette mv (default [] prefix) rest)
    as [[mv' rest']|] eqn:Hrec; simpl; [|done].
  apply LCD_record_length in Hrec. apply IH; lia.
Qed.

(** The loop equation of [new_contents]. *)
Lemma LCD_new_contents_eq mv (readable : bytes) :
  LCD_new_contents palette mv readable =
    let '(prefix, rest) := read 8 readable in
    if negb (truthy prefix) then Ok (mv, rest)
    else
      let! r := LCD_record palette mv (default [] prefix) rest in
      LCD_new_contents palette (fst r) (snd r).
Proof.
  unfold LCD_new_contents at 1. simpl.
  destruct (read 8 readable) as [prefix rest] eqn:Hread.
  destruct (truthy prefix) eqn:Ht; simpl; [|done].
  pose proof (read_shrinks _ _ _ _ Hread Ht) as Hlt.
  destruct (LCD_record palette mv (default [] prefix) rest)
    as [[mv' rest']|] eqn:Hrec; simpl; [|done].
  apply LCD_record_length in Hrec.
  unfold LCD_new_contents. apply LCD_loop_fuel; lia.
Qed.

Lemma unpack_4H_length prefix hdr :
  unpack_4H prefix = Ok hdr -> length prefix = 8%nat.
Proof.
  destruct prefix as [|? [|? [|? [|? [|? [|? [|? [|? [|? ?]]]]]]]]];
    simpl; done.
Qed.

(** One record followed by the rest of the stream. *)
Lemma LCD_new_contents_record mv (prefix rest : bytes) hdr :
  unpack_4H prefix = Ok hdr ->
  LCD_new_contents palette mv (prefix ++ rest) =
    let! r := LCD_record palette mv prefix rest in
    LCD_new_contents palette (fst r) (snd r).
Proof.
  intros Hh. pose proof (unpack_4H_length _ _ Hh) as Hl.
  rewrite LCD_new_contents_eq.
  replace 8%nat with (length prefix) by done.
  rewrite read_exact by (intros ->; done).
  rewrite truthy_Some, Hl. done.
Qed.

Lemma LCD_fill_empty here X Y w h mv :
  w = O \/ h = O -> LCD_fill palette here X Y w h mv = Ok mv.
Proof.
  intros Hz. unfold LCD_fill, range.
  destruct Hz as [-> | ->].
  - rewrite for_skip; [done|].
    intros y s. unfold LCD_row, range.
    by replace (X + 0 - X)%nat with O by lia.
  - by replace (Y + 0 - Y)%nat with O by lia.
Qed.

Lemma LCD_record_empty mv prefix rest X Y w h :
  unpack_4H prefix = Ok (X, Y, w, h) ->
  w = O \/ h = O -> (X + w <= 320)%nat -> (Y + h <= 240)%nat ->
  LCD_record palette mv prefix rest = Ok (mv, rest).
Proof.
  intros Hh Hz HX HY. unfold LCD_record. rewrite Hh; simpl.
  destruct (Nat.leb_spec (X + w) 320); [|lia].
  destruct (Nat.leb_spec (Y + h) 240); [|lia]. simpl.
  replace (w * h)%nat with O by (destruct Hz; subst; lia).
  simpl. by rewrite LCD_fill_empty.
Qed.

Lemma LCD_record_out_of_bounds mv prefix rest X Y w h :
  unpack_4H prefix = Ok (X, Y, w, h) ->
  (320 < X + w)%nat \/ (240 < Y + h)%nat ->
  LCD_record palette mv prefix rest = Raise AssertionError.
Proof.
  intros Hh Hb. unfold LCD_record. rewrite Hh; simpl.
  destruct (Nat.leb_spec (X + w) 320); [|done]. simpl.
  destruct (Nat.leb_spec (Y + h) 240); [lia|done].
Qed.

Lemma LCD_record_short_payload mv prefix rest X Y w h :
  unpack_4H prefix = Ok (X, Y, w, h) ->
  (length rest < w * h)%nat ->
  is_raise (LCD_record palette mv prefix rest).
Proof.
  intros Hh Hs. unfold LCD_record. rewrite Hh; simpl.
  destruct (X + w <=? 320)%nat; simpl; [|done].
  destruct (Y + h <=? 240)%nat; simpl; [|done].
  unfold read. destruct (w * h)%nat as [|sz] eqn:Hsz; [lia|].
  destruct rest as [|b rest]; [done|].
  destruct (Nat.eqb_spec (length (take (S sz) (b :: rest))) (S sz)) as [He|_];
    [|done].
  rewrite length_take in He. lia.
Qed.

End LCDFacts.

(** C5 (amended): for a record with header fields X, Y, width, height,
    a zero width or height with X+width <= 320 and Y+height <= 240 makes
    the record a no-op after which decoding goes on with the next record;
    X+width > 320 or Y+height > 240 fails the bounds assertion; fewer
    pending payload bytes than width*height raises; and an empty header
    read ends the batch with the view unchanged. *)
Theorem LCD_record_cases {colour} (palette : list colour)
    (mv : PixelView colour) (prefix rest : bytes) (X Y w h : nat)
    (Hhdr : unpack_4H prefix = Ok (X, Y, w, h)) :
  (w = O \/ h = O -> (X + w <= 320)%nat -> (Y + h <= 240)%nat ->
     LCD_new_contents palette mv (prefix ++ rest)
       = LCD_new_contents palette mv rest)
  /\ ((320 < X + w)%nat \/ (240 < Y + h)%nat ->
     LCD_new_contents palette mv (prefix ++ rest) = Raise AssertionError)
  /\ ((length rest < w * h)%nat ->
     is_raise (LCD_new_contents palette mv (prefix ++ rest)))
  /\ LCD_new_contents palette mv [] = Ok (mv, []).
Proof.
  split; [|split; [|split]].
  - intros Hz HX HY.
    rewrite (LCD_new_contents_record _ _ _ _ _ Hhdr).
    by rewrite (LCD_record_empty _ _ _ _ _ _ _ _ Hhdr Hz HX HY).
  - intros Hb.
    rewrite (LCD_new_contents_record _ _ _ _ _ Hhdr).
    by rewrite (LCD_record_out_of_bounds _ _ _ _ _ _ _ _ Hhdr Hb).
  - intros Hs.
    rewrite (LCD_new_contents_record _ _ _ _ _ Hhdr).
    pose proof (LCD_record_short_payload palette mv _ _ _ _ _ _ Hhdr Hs) as Hr.
    by destruct (LCD_record palette mv prefix rest).
  - reflexivity.
Qed.

Lemma LCD_record_cases_witness :
  LCD_new_contents palette_colours (LCD_init 0)
    ([10; 0; 20; 0; 0; 0; 5; 0] ++ [7; 7])
  = LCD_new_contents palette_colours (LCD_init 0) [7; 7].
Proof.
  apply (LCD_record_cases palette_colours (LCD_init 0)
           [10; 0; 20; 0; 0; 0; 5; 0] [7; 7] 10 20 0 5).
  - reflexivity.
  - left. reflexivity.
  - lia.
  - lia.
Defined.

(** C5 as stated fails: the record X=400, Y=0, width=0, height=0 has zero
    width and height, and the decoder raises on it. *)
Lemma LCD_zero_area_record_raises :
  unpack_4H [144; 1; 0; 0; 0; 0; 0; 0] = Ok (400, 0, 0, 0)%nat
  /\ LCD_new_contents palette_colours (LCD_init 0)
       [144; 1; 0; 0; 0; 0; 0; 0] = Raise AssertionError.
Proof. split; vm_compute; reflexivity. Qed.

(** ** The LED decoder *)

(** C6: for a status byte b the active set is the bitwise AND of its high
    nibble (b div 16) and its low nibble (b mod 16); 0x00 gives 0, 0xF1
    gives 1 (bit 0 only) and 0x12 gives 0. *)
Theorem led_active_is_nibble_and (b : Z) (Hb : 0 <= b < 256) :
  led_active_set b = Z.land (b / 16) (b mod 16)
  /\ (forall rest : bytes,
        led_readable (b :: rest)
          = (Some (Z.land (b / 16) (b mod 16)), rest))
  /\ led_active_set 0x00 = 0
  /\ led_active_set 0xF1 = 1
  /\ led_active_set 0x12 = 0.
Proof.
  assert (led_active_set b = Z.land (b / 16) (b mod 16)) as Heq.
  { unfold led_active_set.
    rewrite Z.shiftr_div_pow2 by lia.
    change 15 with (Z.ones 4). rewrite !Z.land_ones by lia.
    change (2 ^ 4) with 16.
    rewrite (Z.mod_small (b / 16)); [done|].
    split; [apply Z.div_pos; lia|].
    apply Z.div_lt_upper_bound; lia. }
  split; [done|]. split; [|done].
  intros rest. unfold led_readable, read. simpl. by rewrite Heq.
Qed.

Lemma led_active_is_nibble_and_witness :
  led_active_set 0xF1 = Z.land (0xF1 / 16) (0xF1 mod 16).
Proof. apply (led_active_is_nibble_and 0xF1). lia. Defined.

(** ** The pressed set and the key-out channel *)

Lemma utf8_length c code : utf8 c = Ok code -> (1 <= length code <= 4)%nat.
Proof.
  unfold utf8. repeat case_match; intros [= <-]; simpl; lia.
Qed.

Lemma encode_one_length c code :
  encode [c] = Ok code -> (1 <= length code <= 4)%nat.
Proof.
  simpl. destruct (utf8 c) as [b|] eqn:Hu; simpl; [|done].
  intros [= <-]. rewrite app_nil_r. by eapply utf8_length.
Qed.

Lemma send_event_repeat st ch :
  ch ∈ pressed st -> send_event (Some ch) true st = Ok st.
Proof. intros H. unfold send_event. by rewrite decide_True. Qed.

Lemma send_event_down st ch code :
  ch ∉ pressed st -> encode ch = Ok code ->
  send_event (Some ch) true st
    = Ok (set_pressed (pressed st ∪ {[ch]}) (write code st)).
Proof.
  intros H He. unfold send_event. rewrite decide_False by done.
  by rewrite He.
Qed.

Lemma send_event_up st ch :
  send_event (Some ch) false st =
    Ok (if decide (pressed st ∖ {[ch]} = ∅)
        then write [0] (set_pressed (pressed st ∖ {[ch]}) st)
        else set_pressed (pressed st ∖ {[ch]}) st).
Proof. unfold send_event. simpl. by case_decide. Qed.

(** Releasing the keys of the pressed set one by one, in any order. *)
Lemma release_all (l : list pystr) st :
  NoDup l -> (forall ch, ch ∈ pressed st <-> ch ∈ l) ->
  release l st =
    Ok (if decide (l = []) then st else write [0] (set_pressed ∅ st)).
Proof.
  revert st. induction l as [|ch l IH]; intros st Hnd Hin; [done|].
  cbn [release]. rewrite send_event_up.
  apply NoDup_cons in Hnd as [Hch Hnd].
  assert (forall x, x ∈ pressed st ∖ {[ch]} <-> x ∈ l) as Hin'.
  { intros x. rewrite elem_of_difference, elem_of_singleton, Hin.
    rewrite elem_of_cons. split; [tauto|].
    intros Hx. split; [tauto|]. by intros ->. }
  destruct l as [|ch' l].
  - assert (pressed st ∖ {[ch]} = ∅) as ->.
    { apply set_eq. intros x. rewrite Hin'.
      split; [|by intros ?%not_elem_of_empty]. by intros ?%not_elem_of_nil. }
    rewrite decide_True by done. done.
  - assert (pressed st ∖ {[ch]} <> ∅) as Hne.
    { intros He. apply (not_elem_of_empty (C := gset pystr) ch').
      rewrite <- He. apply Hin'. apply elem_of_cons. by left. }
    rewrite decide_False by done. cbn [bind].
    rewrite IH by done.
    rewrite decide_False by done. rewrite decide_False by done.
    unfold write, set_pressed; simpl. done.
Qed.

(** C7: in [send_event], a down event for a key already in the pressed
    set changes nothing and writes nothing; a down event for a key not in
    the set adds it and writes its code; an up event removes the key, and
    writes the single zero byte exactly when the set is empty afterwards.
    Pressing x then y and releasing them in either order writes one code
    per key and one zero byte, after the second release and not after
    the first. *)
Theorem pressed_set_edges (st : session) (ch : pystr) :
  (ch ∈ pressed st -> send_event (Some ch) true st = Ok st)
  /\ (ch ∉ pressed st -> forall code, encode ch = Ok code ->
        send_event (Some ch) true st
          = Ok (set_pressed (pressed st ∪ {[ch]}) (write code st)))
  /\ (exists st', send_event (Some ch) false st = Ok st'
        /\ pressed st' = pressed st ∖ {[ch]}
        /\ (pressed st' <> ∅ -> numpad_tx st' = numpad_tx st)
        /\ (pressed st' = ∅ -> numpad_tx st' = numpad_tx st ++ [0]))
  /\ (forall cm q1,
        let down c := key_event SDL_KEYDOWN c 0 in
        let up c := key_event SDL_KEYUP c 0 in
        run_events cm q1 [down 120; down 121; up 120] initial
          = Ok (set_pressed {[ [121] ]} (write [120; 121] initial))
        /\ run_events cm q1 [down 120; down 121; up 120; up 121] initial
          = Ok (write [120; 121; 0] initial)
        /\ run_events cm q1 [down 120; down 121; up 121] initial
          = Ok (set_pressed {[ [120] ]} (write [120; 121] initial))
        /\ run_events cm q1 [down 120; down 121; up 121; up 120] initial
          = Ok (write [120; 121; 0] initial)
        /\ run_events cm q1 [down 120; down 120; down 121; down 120] initial
          = Ok (set_pressed {[ [120]; [121] ]} (write [120; 121] initial))).
Proof.
  split; [apply send_event_repeat|].
  split; [intros H code; by apply send_event_down|].
  split.
  - rewrite send_event_up. eexists; split; [done|].
    case_decide as He; simpl; [rewrite He|]; done.
  - intros cm [|]; vm_compute; done.
Qed.

Lemma pressed_set_edges_witness :
  send_event (Some [120]) true initial
    = Ok (set_pressed (pressed initial ∪ {[ [120] ]}) (write [120] initial)).
Proof.
  apply (pressed_set_edges initial [120]).
  - apply not_elem_of_empty.
  - reflexivity.
Defined.

Lemma elements_nil_iff (p : gset pystr) : elements p = [] <-> p = ∅.
Proof.
  split; [|by intros ->].
  intros He. apply set_eq. intros x.
  rewrite <- elem_of_elements, He. split; [by intros ?%not_elem_of_nil|].
  by intros ?%not_elem_of_empty.
Qed.

(** C9: a mouse-button-up event releases every key of the pressed set,
    whatever pressed it, so that the set is empty afterwards; one zero
    byte is written when the set was not empty before, and nothing when
    it was. The order in which the set is walked does not matter. *)
Theorem mouse_up_releases_all (cm : charcodes) (q1 : bool)
    (st : session) (ev : event)
    (Hev : ev_type ev = SDL_MOUSEBUTTONUP) :
  exists st',
    handle_event cm q1 st ev = Ok (st', Continue)
    /\ pressed st' = ∅
    /\ (pressed st <> ∅ -> numpad_tx st' = numpad_tx st ++ [0])
    /\ (pressed st = ∅ -> st' = st)
    /\ (forall order : list pystr,
          NoDup order -> (forall ch, ch ∈ pressed st <-> ch ∈ order) ->
          release order st = Ok st').
Proof.
  unfold handle_event. rewrite Hev.
  rewrite (release_all (elements (pressed st)) st);
    [|apply NoDup_elements|intros ch; by rewrite elem_of_elements].
  cbn [bind]. eexists; split; [done|].
  destruct (decide (elements (pressed st) = [])) as [He|Hne].
  - apply elements_nil_iff in He. split; [done|]. split; [done|].
    split; [done|]. intros order Hnd Hin.
    rewrite release_all by done. rewrite decide_True; [done|].
    destruct order as [|ch order]; [done|].
    exfalso. apply (not_elem_of_empty (C := gset pystr) ch).
    rewrite <- He. apply Hin, elem_of_cons. by left.
  - split; [done|]. split; [done|]. split.
    + intros He. by rewrite He in Hne.
    + intros order Hnd Hin. rewrite release_all by done.
      rewrite decide_False; [done|]. intros ->.
      apply Hne, elements_nil_iff, set_eq. intros x. rewrite Hin.
      split; [by intros ?%not_elem_of_nil|by intros ?%not_elem_of_empty].
Qed.

Lemma mouse_up_releases_all_witness :
  exists st',
    handle_event sample_charmap false
      (set_pressed {[ [120]; [49] ]} (write [120; 49] initial))
      (mouse_event SDL_MOUSEBUTTONUP 60 220) = Ok (st', Continue)
    /\ pressed st' = ∅.
Proof.
  destruct (mouse_up_releases_all sample_charmap false
    (set_pressed {[ [120]; [49] ]} (write [120; 49] initial))
    (mouse_event SDL_MOUSEBUTTONUP 60 220)) as (st' & H1 & H2 & _).
  - reflexivity.
  - exists st'. split; [exact H1|exact H2].
Defined.

(** C10: on the Q1 screen [click_to_key] is [None] at every coordinate,
    and a mouse-button-down event leaves the session as it is. *)
Theorem LCD_click_never_key (x y : Z) :
  LCD_click_to_key x y = None
  /\ click_to_key true x y = None
  /\ (forall cm st s m,
        handle_event cm true st
          {| ev_type := SDL_MOUSEBUTTONDOWN; sym := s; kmod := m;
             button_x := x; button_y := y |}
        = Ok (st, Continue)).
Proof. done. Qed.

(** ** Event handling *)

Lemma many_ok_spec st :
  running (many_ok st) = running st
  /\ pressed (many_ok st) = pressed st
  /\ trace (many_ok st) = trace st
  /\ numpad_tx (many_ok st) = numpad_tx st ++ many_ok_bytes.
Proof.
  split; [reflexivity|]. split; [reflexivity|]. split; [reflexivity|].
  unfold many_ok. cbn [fold_left seq]. cbn [write numpad_tx].
  rewrite <- !app_assoc. reflexivity.
Qed.



Lemma control_key_cases ch st st' ofl :
  control_key ch st = Ok (st', ofl) ->
  pressed st' = pressed st /\
  (numpad_tx st' = numpad_tx st
   \/ numpad_tx st' = numpad_tx st ++ many_ok_bytes).
Proof.
  unfold control_key.
  case_decide; [intros [= <- <-]; auto|].
  destruct ch as [s|]; cbv zeta; [|done].
  set (st0 := if decide (Some s = Some [110]) then log NfcRead st else st).
  assert (pressed st0 = pressed st /\ numpad_tx st0 = numpad_tx st)
    as [Hp Ht].
  { subst st0. by case_decide. }
  clearbody st0.
  destruct (str_in s [122; 115; 101]).
  - intros [= <- <-]. rewrite <- Hp, <- Ht.
    do 3 case_decide; auto.
  - case_decide.
    + intros [= <- <-].
      destruct (many_ok_spec st0) as (_ & Hp' & _ & Ht').
      rewrite Hp', Ht', Hp, Ht. auto.
    + intros [= <- <-]. auto.
Qed.

Lemma one_char_length (s : pystr) : length s = 1%nat -> exists c, s = [c].
Proof. destruct s as [|c [|? ?]]; try done. by exists c. Qed.

Lemma alt_up_one_char cm ch s :
  one_char_codes cm -> alt_up cm ch = Some s -> exists c, s = [c].
Proof.
  intros Hone. unfold one_char_codes in Hone.
  repeat (apply Forall_cons in Hone as [?%one_char_length Hone]).
  unfold alt_up. repeat case_decide; intros [= <-]; done.
Qed.

Lemma scancode_remap_one_char cm sc s :
  one_char_codes cm -> scancode_remap cm sc = Some s -> exists c, s = [c].
Proof.
  intros Hone. unfold one_char_codes in Hone.
  repeat (apply Forall_cons in Hone as [?%one_char_length Hone]).
  unfold scancode_remap.
  repeat (destruct (_ =? _); [intros [= <-]; done|]). done.
Qed.

Lemma key_char_one_char cm q1 ev s :
  one_char_codes cm -> key_char cm q1 ev = Some (Some s) ->
  exists c, s = [c].
Proof.
  intros Hone. unfold key_char.
  destruct ((0 <=? sym ev) && (sym ev <? 1114112)).
  - destruct (Z.land (kmod ev) 768 =? 0).
    + intros [= <-]. eauto.
    + intros [= Ha]. by eapply alt_up_one_char.
  - destruct q1.
    + destruct (scancode_remap cm (Z.land (sym ev) 65535)) as [[|c r]|] eqn:Hr;
        [done| |done].
      intros [= <-]. by eapply scancode_remap_one_char.
    + destruct ((SDL_SCANCODE_RIGHT <=? Z.land (sym ev) 65535)
                && (Z.land (sym ev) 65535 <=? SDL_SCANCODE_UP)); [|done].
      intros (c & _ & [= ->])%fmap_Some. eauto.
Qed.

Lemma mk4_key_one_char ch s :
  (forall s0, ch = Some s0 -> exists c, s0 = [c]) ->
  mk4_key ch = Ok (Some s) -> exists c, s = [c].
Proof.
  intros Hch. unfold mk4_key.
  case_decide; [|case_decide].
  - destruct (negb _); intros [= <-]; eauto.
  - destruct (negb _); intros [= <-]; eauto.
  - destruct ch as [s0|]; [|done].
    destruct (negb _); intros [= <-]; eauto.
Qed.

Lemma is_keydown_true ev : is_keydown ev = true -> ev_type ev = SDL_KEYDOWN.
Proof. unfold is_keydown. by destruct (ev_type ev). Qed.


Lemma click_to_key_one_char q1 x y s :
  click_to_key q1 x y = Some s -> exists c, s = [c].
Proof.
  unfold click_to_key, LCD_click_to_key, OLED_click_to_key.
  destruct q1; [done|].
  destruct (negb _); [done|]. destruct (negb _); [done|].
  intros (c & _ & ->)%fmap_Some. eauto.
Qed.






(** C1 as stated fails twice. Control+m on a key-down writes 90 bytes
    that are neither a key code nor the zero byte. And when x goes down
    with control held (the event is skipped) and comes up after control
    was let go, the key-up writes the zero byte although the pressed set
    was empty all along. *)
Lemma key_out_not_as_described :
  (exists st1,
     handle_event sample_charmap false initial
       (key_event SDL_KEYDOWN 109 64) = Ok (st1, Continue)
     /\ numpad_tx st1 = many_ok_bytes
     /\ ~ described_write initial st1)
  /\ (exists st1,
     run_events sample_charmap false [key_event SDL_KEYDOWN 120 64] initial
       = Ok initial
     /\ handle_event sample_charmap false initial
          (key_event SDL_KEYUP 120 0) = Ok (st1, Continue)
     /\ numpad_tx st1 = [0]
     /\ ~ described_write initial st1).
Proof.
  split.
  - eexists. split; [vm_compute; reflexivity|]. split; [reflexivity|].
    intros [Htx|c code _ _ He Htx|Hp _ _].
    + discriminate Htx.
    + apply encode_one_length in He. simpl in Htx. subst code.
      simpl in He. lia.
    + by apply Hp.
  - eexists. split; [reflexivity|].
    split; [vm_compute; reflexivity|]. split; [reflexivity|].
    intros [Htx|c code _ Hp _ _|Hp _ _].
    + discriminate Htx.
    + assert ([c] ∈ pressed initial ∪ {[ [c] ]}) as Hin.
      { apply elem_of_union_r, elem_of_singleton. done. }
      rewrite <- Hp in Hin. by apply not_elem_of_empty in Hin.
    + by apply Hp.
Qed.
(** ** Painting a record of the indexed decoder *)

Lemma read_prefix (a rest : bytes) :
  read (length a) (a ++ rest) = (Some a, rest).
Proof.
  destruct a as [|x a]; [done|]. by apply read_exact.
Qed.

Lemma land_15_range (v : Z) : 0 <= Z.land v 15 < 16.
Proof.
  change 15 with (Z.ones 4). rewrite Z.land_ones by lia.
  apply Z.mod_pos_bound. lia.
Qed.

Section LCDPaint.

Context {colour : Type}.
Variable palette : list colour.
Hypothesis palette_16 : length palette = 16%nat.
Implicit Types mv : PixelView colour.

Lemma palette_get_nibble (v : Z) :
  exists c, palette_get palette (Z.land v 15) = Ok c
            /\ palette !! Z.to_nat (Z.land v 15) = Some c.
Proof.
  unfold palette_get.
  destruct (lookup_lt_is_Some_2 palette (Z.to_nat (Z.land v 15))) as [c Hc].
  { pose proof (land_15_range v). lia. }
  exists c. by rewrite Hc.
Qed.

Lemma LCD_row_spec here X w y mv p0 :
  dims 240 320 mv -> (y < 240)%nat -> (X + w <= 320)%nat ->
  (p0 + w <= length here)%nat ->
  exists mv', LCD_row palette here X w y (mv, p0) = Ok (mv', (p0 + w)%nat) /\
    dims 240 320 mv' /\
    forall r c, pixel mv' r c =
      if decide (r = y /\ (X <= c < X + w)%nat)
      then payload_colour palette here (p0 + (c - X)) else pixel mv r c.
Proof.
  intros Hd Hy HX Hp. unfold LCD_row, range.
  replace (X + w - X)%nat with w by lia.
  pose (I := fun (x : nat) (s : PixelView colour * nat) =>
    snd s = (p0 + (x - X))%nat /\ dims 240 320 (fst s) /\
    forall r c, pixel (fst s) r c =
      if decide (r = y /\ (X <= c < x)%nat)
      then payload_colour palette here (p0 + (c - X)) else pixel mv r c).
  destruct (for_seq_inv I
    (fun x '(mv, pos) =>
       let! val := getitem here pos in
       let! c := palette_get palette (Z.land val 15) in
       let! mv' := setitem2 mv y x c in
       Ok (mv', S pos)) X w (mv, p0)) as ([mv' p'] & Hf & Hpos & Hd' & Hpx).
  - split; [simpl; lia|]. split; [done|]. intros r c; simpl.
    rewrite decide_False by lia. done.
  - intros x [mv1 pos] Hx (Hpos & Hd1 & Hp1); cbn [fst snd] in *. subst pos.
    destruct (lookup_lt_is_Some_2 here (p0 + (x - X))) as [val Hval]; [lia|].
    unfold getitem. rewrite Hval; simpl.
    destruct (palette_get_nibble val) as (col & Hg & Hl). rewrite Hg; simpl.
    destruct (setitem2_spec 240 320 mv1 y x col Hd1) as (mv2 & Hs & Hd2 & Hp2);
      [lia|lia|].
    rewrite Hs; simpl. eexists; split; [done|]. unfold I. cbn [fst snd].
    split; [lia|]. split; [done|].
    intros r c. rewrite Hp2, Hp1.
    destruct (decide (r = y /\ c = x)) as [[-> ->]|Hne].
    + rewrite decide_True by lia. unfold payload_colour.
      by rewrite Hval.
    + destruct (decide (r = y /\ (X <= c < x)%nat)) as [H1|H1].
      * rewrite decide_True by lia. done.
      * rewrite decide_False by lia. done.
  - cbn [fst snd] in *. exists mv'. split.
    + rewrite Hf. do 2 f_equal. lia.
    + done.
Qed.

Lemma LCD_fill_spec here X Y w h mv :
  dims 240 320 mv -> (X + w <= 320)%nat -> (Y + h <= 240)%nat ->
  length here = (w * h)%nat ->
  exists mv', LCD_fill palette here X Y w h mv = Ok mv' /\
    dims 240 320 mv' /\
    forall r c, pixel mv' r c =
      if decide ((Y <= r < Y + h)%nat /\ (X <= c < X + w)%nat)
      then payload_colour palette here ((r - Y) * w + (c - X)) else pixel mv r c.
Proof.
  intros Hd HX HY Hlen. unfold LCD_fill, range.
  replace (Y + h - Y)%nat with h by lia.
  pose (I := fun (y : nat) (s : PixelView colour * nat) =>
    snd s = ((y - Y) * w)%nat /\ dims 240 320 (fst s) /\
    forall r c, pixel (fst s) r c =
      if decide ((Y <= r < y)%nat /\ (X <= c < X + w)%nat)
      then payload_colour palette here ((r - Y) * w + (c - X)) else pixel mv r c).
  destruct (for_seq_inv I (LCD_row palette here X w) Y h (mv, O))
    as ([mv' p'] & Hf & Hpos & Hd' & Hpx).
  - split; [simpl; lia|]. split; [done|]. intros r c; simpl.
    rewrite decide_False by lia. done.
  - intros y [mv1 pos] Hy (Hpos & Hd1 & Hp1); cbn [fst snd] in *. subst pos.
    destruct (LCD_row_spec here X w y mv1 ((y - Y) * w) Hd1)
      as (mv2 & Hr & Hd2 & Hp2); [lia|lia|nia|].
    rewrite Hr. eexists; split; [done|]. unfold I. cbn [fst snd].
    split; [nia|]. split; [done|].
    intros r c. rewrite Hp2, Hp1.
    destruct (decide (r = y /\ (X <= c < X + w)%nat)) as [[-> Hc]|Hne].
    + rewrite decide_True by lia. done.
    + destruct (decide ((Y <= r < y)%nat /\ (X <= c < X + w)%nat)) as [H1|H1].
      * rewrite decide_True by lia. done.
      * rewrite decide_False by lia. done.
  - cbn [fst snd] in *. exists mv'. rewrite Hf. simpl. done.
Qed.

End LCDPaint.

Lemma read_falsy n (pipe : bytes) b rest :
  read (S n) pipe = (b, rest) -> truthy b = false -> rest = [].
Proof.
  unfold read. destruct pipe as [|x pipe]; intros [= <- <-]; done.
Qed.

Section LCDStream.

Context {colour : Type}.
Variable palette : list colour.
Hypothesis palette_16 : length palette = 16%nat.
Implicit Types mv : PixelView colour.

Lemma LCD_record_dims mv prefix rest mv' rest' :
  dims 240 320 mv ->
  LCD_record palette mv prefix rest = Ok (mv', rest') -> dims 240 320 mv'.
Proof.
  intros Hd. unfold LCD_record.
  destruct (unpack_4H prefix) as [[[[X Y] w] h]|]; simpl; [|done].
  destruct (Nat.leb_spec (X + w) 320); simpl; [|done].
  destruct (Nat.leb_spec (Y + h) 240); simpl; [|done].
  destruct (read (w * h) rest) as [[here|] r']; [|done].
  destruct (Nat.eqb_spec (length here) (w * h)) as [Hl|]; simpl; [|done].
  destruct (LCD_fill_spec palette palette_16 here X Y w h mv Hd)
    as (mv2 & Hf & Hd2 & _); [done|done|done|].
  rewrite Hf. simpl. by intros [= <- <-].
Qed.

Lemma LCD_loop_drains fuel mv (readable : bytes) mv' rest :
  LCD_loop palette fuel mv readable = Ok (mv', rest) ->
  (length readable < fuel)%nat ->
  rest = [] /\ (dims 240 320 mv -> dims 240 320 mv').
Proof.
  revert mv readable. induction fuel as [|fuel IH]; intros mv readable;
    [lia|]. simpl.
  destruct (read 8 readable) as [prefix rest0] eqn:Hread.
  destruct (truthy prefix) eqn:Ht; simpl.
  - destruct (LCD_record palette mv (default [] prefix) rest0)
      as [[mv1 rest1]|] eqn:Hrec; simpl; [|done].
    intros Hl Hfuel.
    pose proof (read_shrinks _ _ _ _ Hread Ht).
    pose proof (LCD_record_length _ _ _ _ _ _ Hrec).
    destruct (IH mv1 rest1 Hl) as [-> Hd]; [lia|].
    split; [done|]. intros Hmv. apply Hd. by eapply LCD_record_dims.
  - intros [= <- <-] _. split; [|done]. by eapply read_falsy.
Qed.

End LCDStream.

(** X1: on a 240x320 view with a 16-entry palette, a record whose
    rectangle fits the screen and whose payload has width*height bytes is
    decoded without error: pixel (r, c) of the rectangle takes the palette
    entry of the low four bits of payload byte (r-Y)*width + (c-X), every
    other pixel keeps its colour, and decoding goes on with the bytes
    after the payload. *)
Theorem LCD_record_paints {colour} (palette : list colour)
    (mv : PixelView colour) (prefix payload rest : bytes) (X Y w h : nat)
    (Hpal : length palette = 16%nat)
    (Hmv : dims 240 320 mv)
    (Hhdr : unpack_4H prefix = Ok (X, Y, w, h))
    (HX : (X + w <= 320)%nat) (HY : (Y + h <= 240)%nat)
    (Hlen : length payload = (w * h)%nat) :
  exists mv',
    LCD_record palette mv prefix (payload ++ rest) = Ok (mv', rest)
    /\ LCD_new_contents palette mv (prefix ++ payload ++ rest)
       = LCD_new_contents palette mv' rest
    /\ dims 240 320 mv'
    /\ forall r c, pixel mv' r c =
         if decide ((Y <= r < Y + h)%nat /\ (X <= c < X + w)%nat)
         then payload_colour palette payload ((r - Y) * w + (c - X))
         else pixel mv r c.
Proof.
  destruct (LCD_fill_spec palette Hpal payload X Y w h mv Hmv HX HY Hlen)
    as (mv' & Hf & Hd & Hp).
  assert (LCD_record palette mv prefix (payload ++ rest) = Ok (mv', rest))
    as Hrec.
  { unfold LCD_record. rewrite Hhdr; simpl.
    destruct (Nat.leb_spec (X + w) 320); [|lia].
    destruct (Nat.leb_spec (Y + h) 240); [|lia]. simpl.
    rewrite <- Hlen, read_prefix, Nat.eqb_refl. simpl.
    by rewrite Hf. }
  exists mv'. split; [done|]. split; [|done].
  rewrite (LCD_new_contents_record _ _ _ _ _ Hhdr). by rewrite Hrec.
Qed.

Lemma LCD_record_paints_witness :
  exists mv',
    LCD_record palette_colours (LCD_init 0) [1; 0; 2; 0; 2; 0; 1; 0]
      ([3; 0x25] ++ []) = Ok (mv', [])
    /\ LCD_new_contents palette_colours (LCD_init 0)
         ([1; 0; 2; 0; 2; 0; 1; 0] ++ [3; 0x25] ++ [])
       = LCD_new_contents palette_colours mv' []
    /\ dims 240 320 mv'
    /\ forall r c, pixel mv' r c =
         if decide ((2 <= r < 2 + 1)%nat /\ (1 <= c < 1 + 2)%nat)
         then payload_colour palette_colours [3; 0x25] ((r - 2) * 2 + (c - 1))
         else pixel (LCD_init 0) r c.
Proof.
  apply (LCD_record_paints palette_colours (LCD_init 0)
           [1; 0; 2; 0; 2; 0; 1; 0] [3; 0x25] [] 1 2 2 1).
  - reflexivity.
  - split; [apply length_replicate|].
    apply Forall_replicate, length_replicate.
  - reflexivity.
  - lia.
  - lia.
  - reflexivity.
Defined.

(** X2: a header read that finds between one and seven pending bytes
    makes [new_contents] raise the error of [struct.unpack]. *)
Theorem LCD_truncated_header {colour} (palette : list colour)
    (mv : PixelView colour) (readable : bytes)
    (Hlen : (0 < length readable < 8)%nat) :
  LCD_new_contents palette mv readable = Raise StructError.
Proof.
  rewrite LCD_new_contents_eq.
  rewrite read_all by (try lia; by destruct readable; simpl in *; try lia).
  rewrite truthy_Some.
  destruct (Nat.eqb_spec (length readable) 0) as [|_]; [lia|]. simpl.
  unfold LCD_record.
  assert (unpack_4H readable = Raise StructError) as ->; [|done].
  destruct readable as [|? [|? [|? [|? [|? [|? [|? [|? ?]]]]]]]];
    simpl in *; try done; lia.
Qed.

Lemma LCD_truncated_header_witness :
  LCD_new_contents palette_colours (LCD_init 0) [1; 0; 2] = Raise StructError.
Proof.
  apply (LCD_truncated_header palette_colours (LCD_init 0) [1; 0; 2]).
  simpl. lia.
Defined.

(** X3: when [new_contents] of the indexed decoder returns, it has read
    the channel empty, and a 240x320 view is still 240x320. *)
Theorem LCD_new_contents_drains {colour} (palette : list colour)
    (mv mv' : PixelView colour) (readable rest : bytes)
    (Hpal : length palette = 16%nat)
    (Hmv : dims 240 320 mv)
    (Hok : LCD_new_contents palette mv readable = Ok (mv', rest)) :
  rest = [] /\ dims 240 320 mv'.
Proof.
  destruct (LCD_loop_drains palette Hpal _ _ _ _ _ Hok) as [-> Hd]; [lia|].
  auto.
Qed.

Lemma LCD_new_contents_drains_witness :
  ([] : bytes) = [] /\ dims 240 320 (LCD_init (colour := Z) 0).
Proof.
  apply (LCD_new_contents_drains palette_colours (LCD_init 0) (LCD_init 0)
           [10; 0; 20; 0; 0; 0; 5; 0] []).
  - reflexivity.
  - split; [apply length_replicate|].
    apply Forall_replicate, length_replicate.
  - reflexivity.
Defined.

(** ** A frame overwrites the whole view *)

Lemma view_ext {colour} h w (mv1 mv2 : PixelView colour) :
  dims h w mv1 -> dims h w mv2 ->
  (forall r c, (r < h)%nat -> (c < w)%nat -> pixel mv1 r c = pixel mv2 r c) ->
  mv1 = mv2.
Proof.
  intros [Hl1 Hr1] [Hl2 Hr2] Hpx. apply list_eq. intros r.
  destruct (decide (r < h)%nat) as [Hr|Hr].
  - destruct (lookup_lt_is_Some_2 mv1 r) as [row1 H1]; [lia|].
    destruct (lookup_lt_is_Some_2 mv2 r) as [row2 H2]; [lia|].
    rewrite H1, H2. f_equal. apply list_eq. intros c.
    pose proof (Forall_lookup_1 _ _ _ _ Hr1 H1) as Hw1.
    pose proof (Forall_lookup_1 _ _ _ _ Hr2 H2) as Hw2.
    simpl in Hw1, Hw2.
    destruct (decide (c < w)%nat) as [Hc|Hc].
    + specialize (Hpx r c Hr Hc). unfold pixel in Hpx.
      by rewrite H1, H2 in Hpx.
    + rewrite !lookup_ge_None_2 by lia. done.
  - rewrite !lookup_ge_None_2 by lia. done.
Qed.

(** X4: a decoded frame overwrites every pixel: on 64x128 views the
    result of the monochrome decoder does not depend on the view it
    started from, and decoding the same data again changes nothing. *)
Theorem OLED_frame_overwrites {colour} (fg bg : colour)
    (mv1 mv2 : PixelView colour) (data : bytes)
    (Hmv1 : dims 64 128 mv1) (Hmv2 : dims 64 128 mv2)
    (Hlen : (1024 <= length data)%nat) :
  exists mv',
    OLED_apply fg bg mv1 (Some data) = Ok mv'
    /\ OLED_apply fg bg mv2 (Some data) = Ok mv'
    /\ OLED_apply fg bg mv' (Some data) = Ok mv'.
Proof.
  rewrite !OLED_apply_frame by done.
  assert (length (last_slice 1024 data) = 1024%nat) as Hl.
  { rewrite last_slice_length. lia. }
  destruct (OLED_frame_spec fg bg _ mv1 Hmv1 Hl) as (m1 & Hf1 & Hd1 & Hp1).
  destruct (OLED_frame_spec fg bg _ mv2 Hmv2 Hl) as (m2 & Hf2 & Hd2 & Hp2).
  destruct (OLED_frame_spec fg bg _ m1 Hd1 Hl) as (m3 & Hf3 & Hd3 & Hp3).
  assert (m2 = m1) as ->.
  { apply (view_ext 64 128); [done|done|].
    intros r c Hr Hc. by rewrite Hp1, Hp2. }
  assert (m3 = m1) as ->.
  { apply (view_ext 64 128); [done|done|].
    intros r c Hr Hc. by rewrite Hp1, Hp3. }
  exists m1. rewrite OLED_apply_frame by done. done.
Qed.

Lemma OLED_frame_overwrites_witness :
  exists mv',
    OLED_apply 1 0 (OLED_init 0) (Some (replicate 1024 170)) = Ok mv'
    /\ OLED_apply 1 0 (OLED_init 1) (Some (replicate 1024 170)) = Ok mv'
    /\ OLED_apply 1 0 mv' (Some (replicate 1024 170)) = Ok mv'.
Proof.
  apply (OLED_frame_overwrites 1 0 (OLED_init 0) (OLED_init 1)
           (replicate 1024 170)).
  - split; [apply length_replicate|].
    apply Forall_replicate, length_replicate.
  - split; [apply length_replicate|].
    apply Forall_replicate, length_replicate.
  - rewrite length_replicate. lia.
Defined.

(** ** The keypad image *)

(** X5: [click_to_key] of the Mk4 returns a key exactly for the clicks
    inside the 3x4 grid of 73-pixel cells whose corner is (52, 216), and
    a click in the cell of row [row] and column [col] gives character
    3*row + col of "123456789x0y". *)
Theorem OLED_click_grid (x y : Z) :
  (is_Some (OLED_click_to_key x y) <->
     KEYPAD_LEFT <= x < KEYPAD_LEFT + 3 * KEYPAD_PITCH /\
     KEYPAD_TOP <= y < KEYPAD_TOP + 4 * KEYPAD_PITCH)
  /\ (forall row col dx dy,
        0 <= row < 4 -> 0 <= col < 3 ->
        0 <= dx < KEYPAD_PITCH -> 0 <= dy < KEYPAD_PITCH ->
        OLED_click_to_key (KEYPAD_LEFT + col * KEYPAD_PITCH + dx)
                          (KEYPAD_TOP + row * KEYPAD_PITCH + dy)
          = (fun c => [c]) <$> keypad !! Z.to_nat (row * 3 + col)).
Proof.
  unfold KEYPAD_LEFT, KEYPAD_TOP, KEYPAD_PITCH. split.
  - unfold OLED_click_to_key, KEYPAD_LEFT, KEYPAD_TOP, KEYPAD_PITCH.
    pose proof (Z.div_mod (x - 52) 73 ltac:(lia)) as Hx.
    pose proof (Z.mod_pos_bound (x - 52) 73 ltac:(lia)) as Hxm.
    pose proof (Z.div_mod (y - 216) 73 ltac:(lia)) as Hy.
    pose proof (Z.mod_pos_bound (y - 216) 73 ltac:(lia)) as Hym.
    set (col := (x - 52) / 73) in *. set (row := (y - 216) / 73) in *.
    destruct (Z.leb_spec 0 row), (Z.ltb_spec row 4),
             (Z.leb_spec 0 col), (Z.ltb_spec col 3); simpl;
      try (split; [by intros [? [=]]|lia]).
    split; [lia|]. intros _. rewrite fmap_is_Some.
    apply lookup_lt_is_Some_2. unfold keypad. simpl. lia.
  - intros row col dx dy Hrow Hcol Hdx Hdy.
    unfold OLED_click_to_key, KEYPAD_LEFT, KEYPAD_TOP, KEYPAD_PITCH.
    replace (52 + col * 73 + dx - 52) with (col * 73 + dx) by lia.
    replace (216 + row * 73 + dy - 216) with (row * 73 + dy) by lia.
    rewrite !Z.div_add_l by lia. rewrite !Z.div_small by lia.
    rewrite !Z.add_0_r.
    destruct (Z.leb_spec 0 row), (Z.ltb_spec row 4),
             (Z.leb_spec 0 col), (Z.ltb_spec col 3); try lia.
    done.
Qed.

Lemma OLED_click_grid_witness :
  OLED_click_to_key (KEYPAD_LEFT + 2 * KEYPAD_PITCH + 72)
                    (KEYPAD_TOP + 3 * KEYPAD_PITCH + 72)
  = (fun c => [c]) <$> keypad !! Z.to_nat (3 * 3 + 2).
Proof.
  apply (OLED_click_grid 0 0); unfold KEYPAD_PITCH; lia.
Defined.

(** ** The shift table *)

Lemma find_elem c (f : pystr) idx : find c f = Some idx -> c ∈ f.
Proof.
  revert idx. induction f as [|a f IH]; intros idx; simpl; [done|].
  destruct (Z.eqb_spec a c) as [->|_]; [intros _; apply elem_of_cons; auto|].
  intros (i & Hi & _)%fmap_Some. apply elem_of_cons. right. by eapply IH.
Qed.

Lemma find_None c (f : pystr) : find c f = None <-> c ∉ f.
Proof.
  induction f as [|a f IH]; simpl.
  - split; [intros _; apply not_elem_of_nil|done].
  - rewrite not_elem_of_cons.
    destruct (Z.eqb_spec a c) as [->|Hne].
    + split; [done|]. by intros [? _].
    + rewrite fmap_None, IH. split; [|tauto]. intros ?. split; [|done].
      by intros ->.
Qed.

Lemma shift_up_fixed (c : Z) :
  ~ (97 <= c <= 122) -> c ∉ shift_f -> shift_up c = c.
Proof.
  intros Hr Hf. unfold shift_up. apply find_None in Hf. rewrite Hf.
  destruct (Z.leb_spec 97 c), (Z.leb_spec c 122); simpl; try done. lia.
Qed.

Lemma shift_f_upper (c : Z) : 65 <= c <= 90 -> c ∉ shift_f.
Proof.
  intros Hc. unfold shift_f. rewrite !not_elem_of_cons.
  repeat split; try lia. apply not_elem_of_nil.
Qed.

(** X6: [shift_up] maps a lowercase letter to its uppercase letter,
    leaves every character outside a..z and outside its table unchanged,
    never returns a lowercase letter or an unshifted table character,
    and so changes nothing when applied a second time. *)
Theorem shift_up_idempotent (c : Z) :
  shift_up (shift_up c) = shift_up c
  /\ ~ (97 <= shift_up c <= 122)
  /\ (shift_up c ∉ shift_f)
  /\ (97 <= c <= 122 -> shift_up c = c - 32)
  /\ (~ (97 <= c <= 122) -> c ∉ shift_f -> shift_up c = c).
Proof.
  assert (~ (97 <= shift_up c <= 122) /\ shift_up c ∉ shift_f) as [Hr Hf].
  { unfold shift_up.
    destruct ((97 <=? c) && (c <=? 122)) eqn:Hrange.
    - apply andb_true_iff in Hrange as [?%Z.leb_le ?%Z.leb_le].
      split; [lia|]. apply shift_f_upper. lia.
    - destruct (find c shift_f) as [idx|] eqn:Hfind.
      + apply find_elem in Hfind as Hin. unfold shift_f in Hin.
        repeat (apply elem_of_cons in Hin as [->|Hin]);
          try (vm_compute in Hfind; injection Hfind as <-; simpl;
               split; [lia|];
               unfold shift_f; rewrite !not_elem_of_cons;
               repeat split; try lia; apply not_elem_of_nil).
        by apply not_elem_of_nil in Hin.
      + apply find_None in Hfind. split; [|done].
        apply andb_false_iff in Hrange as [?%Z.leb_gt|?%Z.leb_gt]; lia. }
  split; [by apply shift_up_fixed|]. split; [done|]. split; [done|].
  split; [|apply shift_up_fixed].
  intros Hc. unfold shift_up.
  destruct (Z.leb_spec 97 c), (Z.leb_spec c 122); simpl; lia.
Qed.

Lemma shift_up_idempotent_witness : shift_up 97 = 97 - 32.
Proof. apply (shift_up_idempotent 97). lia. Defined.

(** ** LED sprites *)

Lemma led_active_bit (c : Z) (i : nat) :
  (i < 4)%nat ->
  Z.testbit (led_active_set c) (Z.of_nat i)
    = Z.testbit c (Z.of_nat i + 4) && Z.testbit c (Z.of_nat i).
Proof.
  intros Hi. unfold led_active_set.
  rewrite !Z.land_spec, Z.shiftr_spec by lia.
  assert (Z.testbit 15 (Z.of_nat i) = true) as ->.
  { destruct i as [|[|[|[|i]]]]; try done. lia. }
  by rewrite !andb_true_r.
Qed.

Lemma led_flag_eqb (c : Z) (i : nat) :
  (i < 4)%nat ->
  (Z.land (led_active_set c) (2 ^ Z.of_nat i) =? 0)
    = negb (Z.testbit c (Z.of_nat i + 4) && Z.testbit c (Z.of_nat i)).
Proof. intros Hi. by rewrite land_pow2_eqb, led_active_bit. Qed.

(** X7: for a status byte c, [draw_leds] of the Mk4 renders the green
    LED when bits 4 and 0 of c are set and the red one otherwise, then
    the SD LED when bits 5 and 1 are set, then the USB LED when bits 6
    and 2 are set. [draw_leds] of the Q1 renders the same first LED and
    raises AttributeError when the SD or the USB LED is active. *)
Theorem leds_drawn_for_status_byte (c : Z) :
  OLED_draw_leds (led_active_set c)
    = [if Z.testbit c 4 && Z.testbit c 0 then led_green else led_red]
      ++ (if Z.testbit c 5 && Z.testbit c 1 then [led_sdcard] else [])
      ++ (if Z.testbit c 6 && Z.testbit c 2 then [led_usb] else [])
  /\ (Z.testbit c 5 && Z.testbit c 1 = false ->
      Z.testbit c 6 && Z.testbit c 2 = false ->
      LCD_draw_leds (led_active_set c)
        = Ok [if Z.testbit c 4 && Z.testbit c 0 then led_green else led_red])
  /\ (Z.testbit c 5 && Z.testbit c 1 = true
      \/ Z.testbit c 6 && Z.testbit c 2 = true ->
      LCD_draw_leds (led_active_set c) = Raise AttributeError).
Proof.
  pose proof (led_flag_eqb c 0 ltac:(lia)) as H0.
  pose proof (led_flag_eqb c 1 ltac:(lia)) as H1.
  pose proof (led_flag_eqb c 2 ltac:(lia)) as H2.
  change (2 ^ Z.of_nat 0) with GEN_LED in H0.
  change (2 ^ Z.of_nat 1) with SD_LED in H1.
  change (2 ^ Z.of_nat 2) with USB_LED in H2.
  change (Z.of_nat 0 + 4) with 4 in H0. change (Z.of_nat 0) with 0 in H0.
  change (Z.of_nat 1 + 4) with 5 in H1. change (Z.of_nat 1) with 1 in H1.
  change (Z.of_nat 2 + 4) with 6 in H2. change (Z.of_nat 2) with 2 in H2.
  unfold OLED_draw_leds, LCD_draw_leds. rewrite H0, H1, H2.
  destruct (Z.testbit c 4 && Z.testbit c 0),
           (Z.testbit c 5 && Z.testbit c 1),
           (Z.testbit c 6 && Z.testbit c 2); cbn [negb];
    (split; [done|split; [by intros|]]); by intros [|].
Qed.

Lemma leds_drawn_for_status_byte_witness :
  LCD_draw_leds (led_active_set 0x22) = Raise AttributeError.
Proof.
  apply (leds_drawn_for_status_byte 0x22). left. reflexivity.
Defined.

(** ** The Mk4 alphabet *)

Lemma startswith_chars (t s : pystr) :
  startswith t s = true -> forall c, c ∈ s -> c ∈ t.
Proof.
  revert t. induction s as [|a s IH]; intros t Hs c Hc.
  - by apply not_elem_of_nil in Hc.
  - destruct t as [|b t]; [done|]. simpl in Hs.
    apply andb_true_iff in Hs as [->%Z.eqb_eq Hs].
    apply elem_of_cons in Hc as [->|Hc]; apply elem_of_cons; [by left|].
    right. by eapply IH.
Qed.

Lemma str_in_chars (s t : pystr) :
  str_in s t = true -> forall c, c ∈ s -> c ∈ t.
Proof.
  induction t as [|b t IH]; simpl; intros Hs c Hc.
  - rewrite orb_false_r in Hs. by eapply startswith_chars.
  - apply orb_true_iff in Hs as [Hs|Hs]; [by eapply startswith_chars|].
    apply elem_of_cons. right. by apply IH.
Qed.

Lemma encode_ascii (s : pystr) :
  (forall c, c ∈ s -> c < 128) -> encode s = Ok s.
Proof.
  induction s as [|a s IH]; intros Hs; simpl; [done|].
  unfold utf8. destruct (Z.ltb_spec a 128) as [_|Hge].
  - simpl. rewrite IH; [done|]. intros c Hc. apply Hs, elem_of_cons. auto.
  - specialize (Hs a ltac:(apply elem_of_cons; auto)). lia.
Qed.

Lemma mk4_alphabet_range (c : Z) : c ∈ mk4_alphabet -> 48 <= c <= 121.
Proof.
  unfold mk4_alphabet. intros Hc.
  repeat (apply elem_of_cons in Hc as [->|Hc]); try lia.
  by apply not_elem_of_nil in Hc.
Qed.

Lemma encode_mk4 (s : pystr) :
  str_in s mk4_alphabet = true -> encode s = Ok s.
Proof.
  intros Hs. apply encode_ascii. intros c Hc.
  pose proof (mk4_alphabet_range c (str_in_chars _ _ Hs c Hc)). lia.
Qed.

Lemma mk4_key_alphabet ch s :
  mk4_key ch = Ok (Some s) -> str_in s mk4_alphabet = true.
Proof.
  unfold mk4_key.
  case_decide; [|case_decide].
  - intros [= <-]. done.
  - intros [= <-]. done.
  - destruct ch as [s0|]; [|done].
    change [48; 49; 50; 51; 52; 53; 54; 55; 56; 57; 120; 121]
      with mk4_alphabet.
    destruct (str_in s0 mk4_alphabet) eqn:Hin; simpl; [|done].
    by intros [= <-].
Qed.

Lemma click_to_key_alphabet x y s :
  OLED_click_to_key x y = Some s -> str_in s mk4_alphabet = true.
Proof.
  unfold OLED_click_to_key.
  destruct (negb _); [done|]. destruct (negb _); [done|].
  intros (c & Hc & ->)%fmap_Some.
  apply list_elem_of_lookup_2 in Hc. unfold keypad in Hc.
  repeat (apply elem_of_cons in Hc as [->|Hc]); try done.
  by apply not_elem_of_nil in Hc.
Qed.

Lemma send_event_mk4 cm s d st st' :
  str_in s mk4_alphabet = true ->
  (one_char_codes cm -> exists c, s = [c]) ->
  send_event (Some s) d st = Ok st' -> mk4_effect cm st st'.
Proof.
  intros Hs Hone. unfold mk4_effect. destruct d.
  - destruct (decide (s ∈ pressed st)) as [Hin|Hin].
    + rewrite send_event_repeat by done. intros [= <-]. left. done.
    + rewrite (send_event_down st s s Hin (encode_mk4 s Hs)).
      intros [= <-]. right; left. exists s. done.
  - rewrite send_event_up. intros [= <-]. case_decide as He.
    + right; right; left. done.
    + left. split; [done|]. simpl. apply subseteq_difference_l. done.
Qed.

Lemma handle_key_mk4 cm ev st st' fl :
  handle_key cm false ev st = Ok (st', fl) -> mk4_effect cm st st'.
Proof.
  unfold handle_key.
  destruct (key_char cm false ev) as [ch|] eqn:Hch;
    [|intros [= <- <-]; by left].
  destruct (Z.eqb_spec (kmod ev) 64) as [Hm|Hm]; simpl.
  - destruct (is_keydown ev) eqn:Hd; [|intros [= <- <-]; by left].
    destruct (control_key ch st) as [[st1 ofl]|] eqn:Hc; simpl; [|done].
    apply control_key_cases in Hc as [Hp [Htx|Htx]].
    + destruct ofl; intros [= <- <-]; left; by rewrite Hp.
    + destruct ofl; intros [= <- <-]; right; right; right; done.
  - destruct (mk4_key ch) as [[s|]|] eqn:Hk; simpl; [| |done].
    + destruct (send_event (Some s) (is_keydown ev) st) as [st1|] eqn:Hse;
        simpl; [|done].
      intros [= <- <-]. eapply send_event_mk4; [| |done].
      * by eapply mk4_key_alphabet.
      * intros Hone. eapply mk4_key_one_char; [|done].
        intros s0 ->. by eapply key_char_one_char.
    + intros [= <- <-]. by left.
Qed.

Lemma handle_event_mk4 cm st ev st' fl :
  handle_event cm false st ev = Ok (st', fl) -> mk4_effect cm st st'.
Proof.
  unfold handle_event. destruct (ev_type ev).
  - intros [= <- <-]. by left.
  - apply handle_key_mk4.
  - apply handle_key_mk4.
  - unfold click_to_key.
    destruct (OLED_click_to_key (button_x ev) (button_y ev)) as [s|] eqn:Hc;
      [|intros [= <- <-]; by left].
    destruct (send_event (Some s) true st) as [st1|] eqn:Hse; simpl; [|done].
    intros [= <- <-]. eapply send_event_mk4; [| |done].
    + by eapply click_to_key_alphabet.
    + intros _. by eapply (click_to_key_one_char false).
  - rewrite (release_all (elements (pressed st)) st);
      [|apply NoDup_elements|intros ch; by rewrite elem_of_elements].
    simpl. intros [= <- <-]. case_decide; [by left|].
    right; right; left. done.
  - intros [= <- <-]. by left.
Qed.

Lemma many_ok_bytes_mk4 : Forall mk4_byte many_ok_bytes.
Proof.
  unfold many_ok_bytes. apply Forall_concat, Forall_replicate. simpl.
  apply Forall_cons. split.
  { left. unfold mk4_alphabet. rewrite !elem_of_cons. auto 20. }
  apply Forall_cons. split; [right; right; done|].
  apply Forall_cons. split; [right; right; done|]. apply Forall_nil. done.
Qed.

Lemma mk4_effect_invariant cm st st' :
  mk4_effect cm st st' -> mk4_keys_ok st ->
  mk4_keys_ok st' /\
  exists chunk, numpad_tx st' = numpad_tx st ++ chunk /\ Forall mk4_byte chunk.
Proof.
  intros [[Htx Hp]|[(s & Hs & _ & Hp & Htx)|[[Hp Htx]|[Hp Htx]]]] Hok.
  - split; [intros s Hs; apply Hok, Hp, Hs|].
    exists []. by rewrite app_nil_r.
  - split.
    + intros s0. rewrite Hp, elem_of_union, elem_of_singleton.
      intros [H0| ->]; [by apply Hok|done].
    + exists s. split; [done|]. apply Forall_forall. intros c Hc.
      left. by eapply str_in_chars.
  - split; [intros s; rewrite Hp; by intros ?%not_elem_of_empty|].
    exists [0]. split; [done|].
    apply Forall_cons. split; [right; left; done|]. by apply Forall_nil.
  - split; [intros s; rewrite Hp; apply Hok|].
    exists many_ok_bytes. split; [done|]. apply many_ok_bytes_mk4.
Qed.

Lemma run_events_mk4_steps cm (P : session -> Prop) evs st st' :
  (forall st1 st2, mk4_effect cm st1 st2 -> P st1 -> P st2) ->
  run_events cm false evs st = Ok st' -> P st -> P st'.
Proof.
  intros Hstep. revert st. induction evs as [|ev evs IH]; intros st; simpl.
  - by intros [= <-].
  - destruct (handle_event cm false st ev) as [[st1 fl]|] eqn:Hh; simpl;
      [|done].
    apply handle_event_mk4 in Hh. destruct fl.
    + intros Hr HP. eapply IH; [done|]. by eapply Hstep.
    + intros [= <-] HP. by eapply Hstep.
Qed.

Lemma run_session_mk4_steps cm (P : session -> Prop) ticks st st' :
  (forall st1 st2, mk4_effect cm st1 st2 -> P st1 -> P st2) ->
  run_session cm false ticks st = Ok st' -> P st -> P st'.
Proof.
  intros Hstep. revert st. induction ticks as [|evs ticks IH]; intros st;
    simpl.
  - by intros [= <-].
  - destruct (running st); [|by intros [= <-]].
    destruct (run_events cm false evs st) as [st1|] eqn:Hr; simpl; [|done].
    intros Hs HP. eapply IH; [done|]. by eapply run_events_mk4_steps.
Qed.

(** X8: on the Mk4, along any session run that starts with every
    pressed key in the device alphabet, every pressed key stays in the
    alphabet and every byte written to key-out is one of 0..9, x, y, the
    zero byte or the newline of the control+m sequence. *)
Theorem mk4_key_out_alphabet (cm : charcodes) (ticks : list (list event))
    (st st' : session)
    (Hrun : run_session cm false ticks st = Ok st')
    (Hok : mk4_keys_ok st) :
  mk4_keys_ok st'
  /\ exists chunk,
       numpad_tx st' = numpad_tx st ++ chunk /\ Forall mk4_byte chunk.
Proof.
  pose (P := fun s : session =>
    mk4_keys_ok s /\
    exists chunk, numpad_tx s = numpad_tx st ++ chunk /\ Forall mk4_byte chunk).
  apply (run_session_mk4_steps cm P ticks st st'); [|done|].
  - intros st1 st2 He [Hk (chunk & Htx & Hb)].
    destruct (mk4_effect_invariant _ _ _ He Hk) as [Hk2 (chunk2 & Htx2 & Hb2)].
    split; [done|]. exists (chunk ++ chunk2).
    split; [by rewrite Htx2, Htx, app_assoc|]. by apply Forall_app.
  - split; [done|]. exists []. by rewrite app_nil_r.
Qed.

Lemma mk4_key_out_alphabet_witness :
  mk4_keys_ok (write [49; 0] initial)
  /\ exists chunk,
       numpad_tx (write [49; 0] initial) = numpad_tx initial ++ chunk
       /\ Forall mk4_byte chunk.
Proof.
  apply (mk4_key_out_alphabet sample_charmap
           [[mouse_event SDL_MOUSEBUTTONDOWN 60 220];
            [mouse_event SDL_MOUSEBUTTONUP 60 220]] initial).
  - vm_compute. reflexivity.
  - intros s Hs. by apply not_elem_of_empty in Hs.
Defined.

Lemma last_many_ok_bytes (tx : bytes) : last (tx ++ many_ok_bytes) = Some 10.
Proof. rewrite last_app. reflexivity. Qed.

Lemma mk4_effect_signalled cm st st' :
  one_char_codes cm -> mk4_effect cm st st' ->
  held_keys_signalled st -> held_keys_signalled st'.
Proof.
  intros Hone [[Htx Hp]|[(s & Hs & Hc & Hp & Htx)|[[Hp Htx]|[Hp Htx]]]] HJ;
    unfold held_keys_signalled in *.
  - intros Hne. rewrite Htx. apply HJ. intros He. apply Hne.
    rewrite He in Hp. apply set_eq. intros x.
    split; [apply Hp|by intros ?%not_elem_of_empty].
  - intros _. destruct (Hc Hone) as [c ->]. rewrite Htx, last_snoc.
    intros [= ->].
    pose proof (mk4_alphabet_range 0
      (str_in_chars _ _ Hs 0 ltac:(apply elem_of_cons; auto))). lia.
  - intros Hne. by rewrite Hp in Hne.
  - intros _. by rewrite Htx, last_many_ok_bytes.
Qed.

(** X9: on the Mk4 with one-character charcodes, along any session
    run, whenever a key is held the last byte written to key-out is not
    the all-up byte. *)
Theorem mk4_held_keys_signalled (cm : charcodes)
    (ticks : list (list event)) (st st' : session)
    (Hone : one_char_codes cm)
    (Hrun : run_session cm false ticks st = Ok st')
    (Hst : held_keys_signalled st) :
  held_keys_signalled st'.
Proof.
  apply (run_session_mk4_steps cm held_keys_signalled ticks st st');
    [|done|done].
  intros st1 st2. by apply mk4_effect_signalled.
Qed.

Lemma mk4_held_keys_signalled_witness :
  held_keys_signalled (set_pressed {[ [49] ]} (write [49] initial)).
Proof.
  apply (mk4_held_keys_signalled sample_charmap
           [[mouse_event SDL_MOUSEBUTTONDOWN 60 220]] initial).
  - unfold one_char_codes. repeat constructor.
  - vm_compute. reflexivity.
  - intros Hne. by destruct Hne.
Defined.

(** ** Key aliases, dropped keys and crashes of the key branch *)

(** X10: on the Mk4, with neither shift nor alt held, Escape is
    handled exactly like x, Return like y, and the right, left, down and
    up arrows like 9, 7, 8 and 5, for every event type and every state. *)
Theorem mk4_key_aliases (cm : charcodes) (st : session) (t : event_type)
    (m : Z) (Hshift : Z.land m 3 = 0) (Halt : Z.land m 768 = 0) :
  handle_event cm false st (key_event t 27 m)
    = handle_event cm false st (key_event t 120 m)
  /\ handle_event cm false st (key_event t 13 m)
    = handle_event cm false st (key_event t 121 m)
  /\ handle_event cm false st (key_event t (1073741824 + SDL_SCANCODE_RIGHT) m)
    = handle_event cm false st (key_event t 57 m)
  /\ handle_event cm false st (key_event t (1073741824 + SDL_SCANCODE_LEFT) m)
    = handle_event cm false st (key_event t 55 m)
  /\ handle_event cm false st (key_event t (1073741824 + SDL_SCANCODE_DOWN) m)
    = handle_event cm false st (key_event t 56 m)
  /\ handle_event cm false st (key_event t (1073741824 + SDL_SCANCODE_UP) m)
    = handle_event cm false st (key_event t 53 m).
Proof.
  unfold handle_event, handle_key, key_char, key_event, is_keydown; simpl.
  rewrite Hshift, Halt; simpl.
  destruct t; simpl; repeat split; try reflexivity;
    destruct (m =? 64); reflexivity.
Qed.

Lemma mk4_key_aliases_witness :
  handle_event sample_charmap false initial (key_event SDL_KEYDOWN 27 0)
  = handle_event sample_charmap false initial (key_event SDL_KEYDOWN 120 0).
Proof.
  apply (mk4_key_aliases sample_charmap initial SDL_KEYDOWN 0);
    reflexivity.
Defined.

(** ** Leaving the loop *)






(** ** A click on the keypad image *)

(** X13: on the Mk4 with no key pressed, a mouse-button-down inside
    the keypad followed by a mouse-button-up anywhere writes the key's
    character and then the zero byte, and leaves no key pressed. *)
Theorem keypad_click_sends_key (cm : charcodes) (st : session)
    (x y x' y' : Z) (key : pystr)
    (Hidle : pressed st = ∅)
    (Hkey : OLED_click_to_key x y = Some key) :
  exists st',
    run_events cm false
      [mouse_event SDL_MOUSEBUTTONDOWN x y;
       mouse_event SDL_MOUSEBUTTONUP x' y'] st = Ok st'
    /\ pressed st' = ∅
    /\ numpad_tx st' = numpad_tx st ++ key ++ [0]
    /\ running st' = running st
    /\ trace st' = trace st
    /\ (exists c, key = [c] /\ c ∈ keypad).
Proof.
  assert (exists c, key = [c] /\ c ∈ keypad) as Hc.
  { revert Hkey. unfold OLED_click_to_key.
    destruct (negb _); [done|]. destruct (negb _); [done|].
    intros (c & Hc & ->)%fmap_Some. exists c. split; [done|].
    by eapply list_elem_of_lookup_2. }
  assert (key ∉ pressed st) as Hnin.
  { rewrite Hidle. apply not_elem_of_empty. }
  cbn [run_events]. unfold handle_event at 1. cbn [mouse_event ev_type
    button_x button_y]. unfold click_to_key. rewrite Hkey.
  rewrite (send_event_down st key key Hnin
             (encode_mk4 key (click_to_key_alphabet x y key Hkey))).
  cbn [bind snd fst]. unfold handle_event. cbn [mouse_event ev_type].
  set (st2 := set_pressed (pressed st ∪ {[key]}) (write key st)).
  rewrite (release_all (elements (pressed st2)) st2);
    [|apply NoDup_elements|intros ch; by rewrite elem_of_elements].
  cbn [bind snd fst]. rewrite decide_False.
  - eexists. split; [done|]. simpl. rewrite <- app_assoc. done.
  - intros He%elements_nil_iff.
    apply (not_elem_of_empty (C := gset pystr) key). rewrite <- He.
    simpl. apply elem_of_union_r, elem_of_singleton. done.
Qed.

Lemma keypad_click_sends_key_witness :
  exists st',
    run_events sample_charmap false
      [mouse_event SDL_MOUSEBUTTONDOWN 270 507;
       mouse_event SDL_MOUSEBUTTONUP 300 600] initial = Ok st'
    /\ pressed st' = ∅
    /\ numpad_tx st' = numpad_tx initial ++ [121] ++ [0]
    /\ running st' = running initial
    /\ trace st' = trace initial
    /\ (exists c, [121] = [c] /\ c ∈ keypad).
Proof.
  apply (keypad_click_sends_key sample_charmap initial 270 507 300 600 [121]).
  - reflexivity.
  - reflexivity.
Defined.




(** X14: key events that map to no device key are dropped without any
    effect: on the Q1 a non-character key code whose scancode is not in
    the remap table, on the Mk4 a non-character key code that is not an
    arrow, and on the Mk4 a character (without alt or control) that is
    none of Escape, Return, 0..9, x, y. *)
Theorem unmapped_keys_are_dropped (cm : charcodes) (st : session)
    (ev : event)
    (Hty : ev_type ev = SDL_KEYDOWN \/ ev_type ev = SDL_KEYUP) :
  (~ (0 <= sym ev < 1114112) ->
   scancode_remap cm (Z.land (sym ev) 65535) = None ->
   handle_event cm true st ev = Ok (st, Continue))
  /\ (~ (0 <= sym ev < 1114112) ->
      ~ (SDL_SCANCODE_RIGHT <= Z.land (sym ev) 65535 <= SDL_SCANCODE_UP) ->
      handle_event cm false st ev = Ok (st, Continue))
  /\ (0 <= sym ev < 1114112 -> Z.land (kmod ev) 768 = 0 ->
      kmod ev <> 64 ->
      let ch := if Z.land (kmod ev) 3 =? 0 then sym ev
                else shift_up (sym ev) in
      ch <> 27 -> ch <> 13 -> ch ∉ mk4_alphabet ->
      handle_event cm false st ev = Ok (st, Continue)).
Proof.
  assert (forall q1, handle_event cm q1 st ev = handle_key cm q1 ev st) as He.
  { intros q1. unfold handle_event. by destruct Hty as [-> | ->]. }
  rewrite !He. unfold handle_key, key_char. split; [|split].
  - intros Hsym Hr.
    destruct (Z.leb_spec 0 (sym ev)), (Z.ltb_spec (sym ev) 1114112);
      simpl; try lia; by rewrite Hr.
  - intros Hsym Hr.
    destruct (Z.leb_spec 0 (sym ev)), (Z.ltb_spec (sym ev) 1114112);
      simpl; try lia;
      destruct (Z.leb_spec SDL_SCANCODE_RIGHT (Z.land (sym ev) 65535)),
        (Z.leb_spec (Z.land (sym ev) 65535) SDL_SCANCODE_UP);
      simpl; try done; lia.
  - intros Hsym Halt Hm H27 H13 Hin.
    set (ch := if Z.land (kmod ev) 3 =? 0 then sym ev
               else shift_up (sym ev)) in *.
    destruct (Z.leb_spec 0 (sym ev)); [|lia].
    destruct (Z.ltb_spec (sym ev) 1114112); [|lia]. simpl.
    rewrite Halt. simpl.
    destruct (Z.eqb_spec (kmod ev) 64); [done|]. simpl.
    unfold mk4_key. rewrite !decide_False by congruence.
    change [48; 49; 50; 51; 52; 53; 54; 55; 56; 57; 120; 121]
      with mk4_alphabet.
    destruct (str_in [ch] mk4_alphabet) eqn:Hs; [|done].
    exfalso. apply Hin. eapply str_in_chars; [done|].
    apply elem_of_cons. by left.
Qed.

Lemma unmapped_keys_are_dropped_witness :
  handle_event sample_charmap false initial (key_event SDL_KEYDOWN 97 0)
  = Ok (initial, Continue).
Proof.
  apply (unmapped_keys_are_dropped sample_charmap initial
           (key_event SDL_KEYDOWN 97 0)).
  - left. reflexivity.
  - simpl. lia.
  - reflexivity.
  - done.
  - done.
  - done.
  - unfold mk4_alphabet. simpl. rewrite !not_elem_of_cons.
    repeat split; try done. apply not_elem_of_nil.
Defined.

(** ** Every write to the key-out channel *)

Lemma control_key_write ch st st' ofl :
  control_key ch st = Ok (st', ofl) ->
  numpad_tx st' = numpad_tx st
  \/ (ch = Some [109] /\ pressed st' = pressed st /\
      numpad_tx st' = numpad_tx st ++ many_ok_bytes).
Proof.
  unfold control_key.
  case_decide; [intros [= <- <-]; auto|].
  destruct ch as [s|]; cbv zeta; [|done].
  set (st0 := if decide (Some s = Some [110]) then log NfcRead st else st).
  assert (pressed st0 = pressed st /\ numpad_tx st0 = numpad_tx st)
    as [Hp Ht].
  { subst st0. by case_decide. }
  clearbody st0.
  destruct (str_in s [122; 115; 101]).
  - intros [= <- <-]. left. rewrite <- Ht. by do 3 case_decide.
  - case_decide as Hm.
    + intros [= <- <-]. right. subst s. split; [done|].
      destruct (many_ok_spec st0) as (_ & Hp' & _ & Ht').
      by rewrite Hp', Ht', Hp, Ht.
    + intros [= <- <-]. auto.
Qed.

Lemma send_event_key_out cm q1 ev ch d st st' :
  send_event ch d st = Ok st' ->
  (d = true ->
     ((ev_type ev = SDL_KEYDOWN /\ kmod ev <> 64)
        \/ ev_type ev = SDL_MOUSEBUTTONDOWN)
     /\ translated_key cm q1 ev = ch
     /\ forall s, ch = Some s ->
          exists c, s = [c] /\ (q1 = false -> c ∈ mk4_alphabet)) ->
  (d = false -> ev_type ev = SDL_KEYUP /\ kmod ev <> 64) ->
  key_out_write cm q1 ev st st'.
Proof.
  intros Hse Hdown Hup. destruct d.
  - destruct (Hdown eq_refl) as (Hty & Htr & Hch).
    destruct ch as [s|]; [|done].
    destruct (Hch s eq_refl) as (c & -> & Halpha).
    destruct (decide ([c] ∈ pressed st)) as [Hin|Hin].
    + rewrite send_event_repeat in Hse by done.
      injection Hse as <-. by apply kw_none.
    + unfold send_event in Hse. rewrite decide_False in Hse by done.
      destruct (encode [c]) as [code|] eqn:He; [|done].
      simpl in Hse. injection Hse as <-.
      eapply (kw_key_down _ _ _ _ _ c code); try done.
      intros Hq. specialize (Halpha Hq). split; [done|].
      rewrite encode_ascii in He.
      * by injection He as <-.
      * intros x ->%list_elem_of_singleton.
        pose proof (mk4_alphabet_range c Halpha). lia.
  - destruct (Hup eq_refl) as [Hty Hm].
    unfold send_event in Hse.
    destruct ch as [s|]; case_decide as He; injection Hse as <-;
      (by apply kw_key_up) || by apply kw_none.
Qed.

Lemma handle_key_key_out cm q1 ev st st' fl :
  one_char_codes cm ->
  ev_type ev = SDL_KEYDOWN \/ ev_type ev = SDL_KEYUP ->
  handle_key cm q1 ev st = Ok (st', fl) ->
  key_out_write cm q1 ev st st'.
Proof.
  intros Hone Hty.
  assert (is_keydown ev = true -> ev_type ev = SDL_KEYDOWN) as Hdn
    by apply is_keydown_true.
  assert (is_keydown ev = false -> ev_type ev = SDL_KEYUP) as Hup.
  { unfold is_keydown. by destruct Hty as [-> | ->]. }
  assert (translated_key cm q1 ev =
    match key_char cm q1 ev with
    | Some ch => if q1 then ch
                 else match mk4_key ch with Ok k => k | Raise _ => None end
    | None => None
    end) as Htr.
  { unfold translated_key. by destruct Hty as [-> | ->]. }
  unfold handle_key.
  destruct (key_char cm q1 ev) as [ch|] eqn:Hch;
    [|intros [= <- <-]; by apply kw_none].
  destruct (Z.eqb_spec (kmod ev) 64) as [Hm|Hm]; simpl.
  - destruct (is_keydown ev) eqn:Hd;
      [|intros [= <- <-]; by apply kw_none].
    destruct (control_key ch st) as [[st1 ofl]|] eqn:Hc; simpl; [|done].
    apply control_key_write in Hc as [Htx|(-> & Hp & Htx)].
    + destruct ofl; intros [= <- <-]; by apply kw_none.
    + destruct ofl; intros [= <- <-]; apply kw_many_ok; auto.
  - destruct q1.
    + destruct (send_event ch (is_keydown ev) st) as [st1|] eqn:Hse; simpl;
        [|done].
      intros [= <- <-]. eapply send_event_key_out; [done| |].
      * intros Hd. split; [left; auto|]. split; [done|].
        intros s ->. destruct (key_char_one_char _ _ _ _ Hone Hch) as [c ->].
        exists c. done.
      * intros Hd. auto.
    + destruct (mk4_key ch) as [[s|]|] eqn:Hk; simpl; [| |done].
      * destruct (send_event (Some s) (is_keydown ev) st) as [st1|] eqn:Hse;
          simpl; [|done].
        intros [= <- <-]. eapply send_event_key_out; [done| |].
        -- intros Hd. split; [left; auto|]. split; [done|].
           intros s0 [= <-].
           destruct (mk4_key_one_char ch s) as [c ->]; [|done|].
           { intros s0 ->. by eapply key_char_one_char. }
           exists c. split; [done|]. intros _.
           eapply str_in_chars; [by eapply mk4_key_alphabet|].
           by apply list_elem_of_singleton.
        -- intros Hd. auto.
      * intros [= <- <-]. by apply kw_none.
Qed.

Lemma handle_event_key_out cm q1 st ev st' fl :
  one_char_codes cm ->
  handle_event cm q1 st ev = Ok (st', fl) -> key_out_write cm q1 ev st st'.
Proof.
  intros Hone. unfold handle_event. destruct (ev_type ev) eqn:Hty.
  - intros [= <- <-]. by apply kw_none.
  - apply handle_key_key_out; auto.
  - apply handle_key_key_out; auto.
  - destruct (click_to_key q1 (button_x ev) (button_y ev)) as [s|] eqn:Hc;
      [|intros [= <- <-]; by apply kw_none].
    destruct (send_event (Some s) true st) as [st1|] eqn:Hse; simpl; [|done].
    intros [= <- <-]. eapply send_event_key_out; [done| |done].
    intros _. split; [by right|]. split.
    + unfold translated_key. by rewrite Hty.
    + intros s0 [= <-].
      destruct (click_to_key_one_char _ _ _ _ Hc) as [c ->].
      exists c. split; [done|]. intros ->.
      eapply str_in_chars; [by eapply click_to_key_alphabet|].
      by apply list_elem_of_singleton.
  - rewrite (release_all (elements (pressed st)) st);
      [|apply NoDup_elements|intros ch; by rewrite elem_of_elements].
    simpl. intros [= <- <-]. case_decide as He; [by apply kw_none|].
    apply kw_mouse_up; try done.
    intros Hp. apply He. by rewrite Hp.
  - intros [= <- <-]. by apply kw_none.
Qed.

Lemma run_events_key_out cm q1 evs st st' :
  one_char_codes cm ->
  run_events cm q1 evs st = Ok st' -> key_out_run cm q1 st st'.
Proof.
  intros Hone. revert st. induction evs as [|ev evs IH]; intros st; simpl.
  - intros [= <-]. apply kr_done.
  - destruct (handle_event cm q1 st ev) as [[st1 fl]|] eqn:Hh; simpl; [|done].
    apply (handle_event_key_out _ _ _ _ _ _ Hone) in Hh.
    destruct fl.
    + intros Hr. eapply kr_event; [done|]. by apply IH.
    + intros [= <-]. eapply kr_event; [done|]. apply kr_done.
Qed.

Lemma key_out_run_trans cm q1 st1 st2 st3 :
  key_out_run cm q1 st1 st2 -> key_out_run cm q1 st2 st3 ->
  key_out_run cm q1 st1 st3.
Proof.
  induction 1 as [|ev st st1 st2 Hw Hr IH]; [done|].
  intros H3. eapply kr_event; [done|]. by apply IH.
Qed.

(** C1 (amended): when the charcodes constants are one character long,
    every handled event does one of the following to key-out, and so does
    every event of every session run. It writes nothing. Or, on a
    key-down with [mod != 0x40] or a mouse-button-down, the one-character
    key that the event translates to enters the pressed set and its
    UTF-8 bytes are written; on the Mk4 that key is one of 0..9, x, y and
    the one byte written is that character. Or, on a key-up with
    [mod != 0x40] after which the pressed set is empty, the single zero
    byte is written (also when the set was empty before). Or, on a
    mouse-button-up that empties a non-empty pressed set, the single zero
    byte is written. Or, on a key-down of m with [mod == 0x40], the 90
    bytes of thirty "y\n" "\n" pairs are written. *)
Theorem key_out_writes (cm : charcodes) (q1 : bool)
    (Hone : one_char_codes cm) :
  (forall st ev st' fl,
     handle_event cm q1 st ev = Ok (st', fl) ->
     key_out_write cm q1 ev st st')
  /\ (forall ticks st st',
        run_session cm q1 ticks st = Ok st' -> key_out_run cm q1 st st').
Proof.
  split.
  - intros st ev st' fl Hh. by eapply handle_event_key_out.
  - induction ticks as [|evs ticks IH]; intros st st'; simpl.
    + intros [= <-]. apply kr_done.
    + destruct (running st); [|intros [= <-]; apply kr_done].
      destruct (run_events cm q1 evs st) as [st1|] eqn:Hr; simpl; [|done].
      intros Hs. eapply key_out_run_trans.
      * by eapply run_events_key_out.
      * by apply IH.
Qed.

Lemma key_out_writes_witness :
  key_out_write sample_charmap false (key_event SDL_KEYDOWN 120 0) initial
    (set_pressed {[ [120] ]} (write [120] initial)).
Proof.
  assert (one_char_codes sample_charmap) as Hone.
  { unfold one_char_codes. repeat constructor. }
  apply (key_out_writes sample_charmap false Hone) with (fl := Continue).
  vm_compute. reflexivity.
Defined.
